(** * examples/mnist/mnist.py: the caching dataset and the training script

    A shallow embedding of the two pieces of logic the script owns:
    the memoising dataset wrapper [CachedMNIST] and the orchestration
    function [main].  Python objects that are shared by reference (the
    two-element lists kept in the cache) live in an explicit store, and
    calls into torch, torchvision, scikit-learn, seaborn, tensorboardX and
    the ptsdae package are events answered by an environment. *)

From Stdlib Require Import ZArith List String.
From Stdlib Require Import Strings.Byte.
From Stdlib Require Import Floats.SpecFloat.
From stdpp Require Import base gmap list.

Local Open Scope Z_scope.

(** ** Tensors *)

(** The arithmetic torch performs on tensor elements is outside the script;
    it is an interface here.  [of_byte] is the [.float()] conversion of one
    uint8 element, [fmul] the elementwise product and [lit_0_02] the
    element the Python literal [0.02] becomes. *)
Class TensorArith (F : Type) := {
  of_byte : byte -> F;
  fmul : F -> F -> F;
  lit_0_02 : F
}.

(** IEEE binary32, the element type [.float()] produces. *)
Definition binary32 : Type := spec_float.

Definition b32_of_byte (b : byte) : binary32 :=
  binary_normalize 24 128 (Z.of_N (Byte.to_N b)) 0 false.

(** 0.02 rounded to binary32: 0x3CA3D70A. *)
Definition b32_0_02 : binary32 := S754_finite false 10737418 (-29).

#[export] Instance binary32_arith : TensorArith binary32 := {
  of_byte := b32_of_byte;
  fmul := SFmul 24 128;
  lit_0_02 := b32_0_02
}.

Inductive device := Cpu | Cuda.

(** The exceptions the operations of the accessor can raise. *)
Inductive exn := IndexError | KeyError | AttributeError | ValueError.

(** ** The underlying dataset

    [torchvision.datasets.MNIST] is an external collaborator.  It holds the
    decoded images with their integer labels, and indexes them the way
    Python sequences and tensors do: [-n <= i < 0] counts from the end,
    anything outside [-n, n) raises IndexError.  Its storage is indexed by
    64-bit integers: an index that does not fit overflows in the
    conversion, which raises ValueError, before any bounds check. *)

(** A decoded image, as the raw buffer [img.tobytes()] returns. *)
Definition image := list byte.

Definition tobytes (img : image) : list byte := img.

Record MNIST := mkMNIST { train : bool; samples : list (image * Z) }.

Definition py_index {A : Type} (l : list A) (i : Z) : option A :=
  let n := Z.of_nat (length l) in
  if decide (0 <= i < n) then l !! Z.to_nat i
  else if decide (- n <= i < 0) then l !! Z.to_nat (n + i)
  else None.

(** The exception the dataset's lookup raises at an index it has no sample
    for. *)
Definition lookup_error (index : Z) : exn :=
  if decide (- 2 ^ 63 <= index < 2 ^ 63) then IndexError else ValueError.

(** [len(d)] *)
Definition MNIST_len (d : MNIST) : Z := Z.of_nat (length (samples d)).

(** ** The dataset object *)

(** Addresses of the list objects the cache refers to. *)
Definition loc := nat.

Record CachedMNIST := mkCachedMNIST {
  ds : MNIST;
  cuda : bool;
  testing_mode : bool;
  _cache : gmap Z loc
}.

(** [CachedMNIST(train, cuda, testing_mode)], given the dataset
    [MNIST('./data', download=True, train=train, transform=...)] returned. *)
Definition __init__ (mnist : MNIST) (cuda testing_mode : bool) : CachedMNIST :=
  {| ds := mnist; cuda := cuda; testing_mode := testing_mode; _cache := ∅ |}.

Definition __len__ (self : CachedMNIST) : Z :=
  if testing_mode self then 128 else MNIST_len (ds self).

Section Dataset.

Context {F : Type} {TA : TensorArith F}.

(** A tensor is either a one-dimensional float tensor (a flattened image)
    or the zero-dimensional int64 tensor [torch.tensor(label)] builds. *)
Inductive tdata :=
| Floats (xs : list F)
| Int64Scalar (n : Z).

Record Tensor := mkTensor { t_device : device; t_data : tdata }.

(** The values a cache entry's slots can hold. *)
Inductive pyval :=
| PyInt (n : Z)
| PyTensor (t : Tensor).

(** [t.cuda(non_blocking=True)], on a machine whose accelerator takes the
    tensor: a failing move is not modelled. *)
Definition Tensor_cuda (t : Tensor) : Tensor := mkTensor Cuda (t_data t).

(** [v.cuda(...)] on an arbitrary value: an [int] has no such method. *)
Definition cuda_method (v : pyval) : exn + pyval :=
  match v with
  | PyTensor t => inr (PyTensor (Tensor_cuda t))
  | PyInt _ => inl AttributeError
  end.

(** [torch.tensor(v)]: a fresh CPU tensor from an int, a copy of a tensor. *)
Definition torch_tensor (v : pyval) : Tensor :=
  match v with
  | PyInt n => mkTensor Cpu (Int64Scalar n)
  | PyTensor t => t
  end.

(** The device a slot's value lives on; a plain [int] is on none. *)
Definition device_of (v : pyval) : option device :=
  match v with
  | PyTensor t => Some (t_device t)
  | PyInt _ => None
  end.

(** ** The transform *)

(** [torch.ByteTensor(torch.ByteStorage.from_buffer(bs)).float()] *)
Definition ByteTensor_float (bs : list byte) : list F := map of_byte bs.

(** [xs * c] *)
Definition mul_scalar (xs : list F) (c : F) : list F :=
  map (fun x => fmul x c) xs.

Definition _transformation (img : image) : Tensor :=
  mkTensor Cpu (Floats (mul_scalar (ByteTensor_float (tobytes img)) lit_0_02)).

(** ** The store

    The lists held in the cache are mutable objects: the store maps their
    addresses to their current slots, and an address never handed out has
    no slots.  [transform_calls] counts how often the transform has run. *)
Record Store := mkStore {
  self : CachedMNIST;
  lists : gmap loc (list pyval);
  next_loc : loc;
  transform_calls : nat
}.

Definition Py (A : Type) : Type := Store -> (exn + A) * Store.

Definition ret {A} (a : A) : Py A := fun s => (inr a, s).

Definition bind {A B} (m : Py A) (k : A -> Py B) : Py B :=
  fun s =>
    match m s with
    | (inr a, s') => k a s'
    | (inl e, s') => (inl e, s')
    end.

Definition lift {A} (r : exn + A) : Py A := fun s => (r, s).

Notation "x <- m ;; k" := (bind m (fun x => k))
  (at level 100, m at next level, right associativity).
Notation "m ;;; k" := (bind m (fun _ => k))
  (at level 100, right associativity).

Definition deref (s : Store) (l : loc) : list pyval := default [] (lists s !! l).

(** [self.cuda] *)
Definition get_cuda : Py bool := fun s => (inr (cuda (self s)), s).

(** [index in self._cache] *)
Definition cache_contains (index : Z) : Py bool :=
  fun s => (inr (bool_decide (is_Some (_cache (self s) !! index))), s).

(** [self._cache[index]] *)
Definition cache_getitem (index : Z) : Py loc :=
  fun s =>
    match _cache (self s) !! index with
    | Some l => (inr l, s)
    | None => (inl KeyError, s)
    end.

(** [self._cache[index] = l] *)
Definition cache_setitem (index : Z) (l : loc) : Py unit :=
  fun s =>
    let me := self s in
    (inr tt,
     {| self := {| ds := ds me; cuda := cuda me; testing_mode := testing_mode me;
                   _cache := <[index := l]> (_cache me) |};
        lists := lists s; next_loc := next_loc s;
        transform_calls := transform_calls s |}).

(** [self.ds[index]]: the dataset looks the raw sample up, runs the
    transform on the image and returns the pair. *)
Definition MNIST_getitem (index : Z) : Py (Tensor * Z) :=
  fun s =>
    match py_index (samples (ds (self s))) index with
    | Some (img, target) =>
        (inr (_transformation img, target),
         {| self := self s; lists := lists s; next_loc := next_loc s;
            transform_calls := S (transform_calls s) |})
    | None => (inl (lookup_error index), s)
    end.

(** [list(t)] for a pair [t]: a fresh list object. *)
Definition new_list (vs : list pyval) : Py loc :=
  fun s =>
    (inr (next_loc s),
     {| self := self s; lists := <[next_loc s := vs]> (lists s);
        next_loc := S (next_loc s); transform_calls := transform_calls s |}).

(** [l[k]] *)
Definition list_getitem (l : loc) (k : nat) : Py pyval :=
  fun s =>
    match deref s l !! k with
    | Some v => (inr v, s)
    | None => (inl IndexError, s)
    end.

(** [l[k] = v] *)
Definition list_setitem (l : loc) (k : nat) (v : pyval) : Py unit :=
  fun s =>
    if decide (k < length (deref s l))%nat then
      (inr tt,
       {| self := self s; lists := <[l := <[k := v]> (deref s l)]> (lists s);
          next_loc := next_loc s; transform_calls := transform_calls s |})
    else (inl IndexError, s).

Definition __getitem__ (index : Z) : Py loc :=
  present <- cache_contains index ;;
  (if negb present then
     item <- MNIST_getitem index ;;
     fresh <- new_list [PyTensor (fst item); PyInt (snd item)] ;;
     cache_setitem index fresh ;;;
     on_gpu <- get_cuda ;;
     if on_gpu then
       entry <- cache_getitem index ;;
       x <- list_getitem entry 0 ;;
       x' <- lift (cuda_method x) ;;
       entry <- cache_getitem index ;;
       list_setitem entry 0 x' ;;;
       entry <- cache_getitem index ;;
       y <- list_getitem entry 1 ;;
       entry <- cache_getitem index ;;
       list_setitem entry 1 (PyTensor (Tensor_cuda (torch_tensor y)))
     else ret tt
   else ret tt) ;;;
  cache_getitem index.

(** The slots a cache entry is filled with for the raw sample
    [(img, target)], depending on the [cuda] flag. *)
Definition entry_of (on_gpu : bool) (img : image) (target : Z) : list pyval :=
  if on_gpu then
    [PyTensor (Tensor_cuda (_transformation img));
     PyTensor (Tensor_cuda (torch_tensor (PyInt target)))]
  else [PyTensor (_transformation img); PyInt target].

(** The store [__getitem__] leaves behind when it fills the entry for
    [index] from the raw sample [(img, target)]. *)
Definition filled (s : Store) (index : Z) (img : image) (target : Z) : Store :=
  {| self := {| ds := ds (self s); cuda := cuda (self s);
                testing_mode := testing_mode (self s);
                _cache := <[index := next_loc s]> (_cache (self s)) |};
     lists := <[next_loc s := entry_of (cuda (self s)) img target]> (lists s);
     next_loc := S (next_loc s);
     transform_calls := S (transform_calls s) |}.

(** What holds of every store the dataset's own operations produce: each
    cached index refers to an allocated list holding the entry of its raw
    sample. *)
Definition consistent (s : Store) : Prop :=
  forall i l, _cache (self s) !! i = Some l ->
    (l < next_loc s)%nat /\
    exists img target,
      py_index (samples (ds (self s))) i = Some (img, target) /\
      deref s l = entry_of (cuda (self s)) img target.

(** The store right after construction: nothing cached, nothing allocated,
    the transform never run. *)
Definition fresh_store (me : CachedMNIST) : Store :=
  {| self := me; lists := ∅; next_loc := 0%nat; transform_calls := 0%nat |}.

(** The store after the accessor has been called on each of the given
    indices in turn, whether or not a call raised. *)
Definition after_reads (indices : list Z) (s : Store) : Store :=
  fold_left (fun st i => snd (__getitem__ i st)) indices s.

End Dataset.

Arguments tdata F : clear implicits.
Arguments Tensor F : clear implicits.
Arguments pyval F : clear implicits.
Arguments Store F : clear implicits.
Arguments Py F A : clear implicits.

(** ** The orchestrator

    Every call [main] makes into a library is an event, named after the
    callee and carrying the arguments the script chooses.  A dataset
    argument is identified by the [train] flag it was built with.
    [NextBatch] is one step of the loop's iterator, the loader collating
    the samples at the given indices; [Encoder] is
    [autoencoder.encoder(batch).detach().cpu()] on that batch; [Reassign]
    is the list comprehension over [predicted]; [Normalise] the row
    normalisation of the confusion matrix; [Savefig] the chain
    [sns.heatmap(...).get_figure().savefig(name)]; [Train_data_images] the
    expression [ds_train.ds.train_data.float().unsqueeze(1)]. *)
Inductive call :=
| SummaryWriter_new
| MNIST_new (train : bool)
| StackedDenoisingAutoEncoder_new (dimensions : list Z)
| Autoencoder_cuda
| Print (line : string)
| Pretrain (dataset_train validation_train : bool) (cuda : bool) (epochs batch_size : Z)
| SGD_new
| StepLR_new (step_size : Z)
| Train (dataset_train validation_train : bool) (cuda : bool) (epochs batch_size : Z)
| DataLoader_new (dataset_train : bool) (batch_size : Z) (shuffle : bool)
| KMeans_new (n_clusters n_init : Z)
| Autoencoder_eval
| NextBatch (indices : list nat)
| Batch_cuda
| Encoder (indices : list nat)
| Cat_actual
| Cat_features
| Fit_predict
| Cluster_accuracy
| Reassign
| Confusion_matrix
| Normalise
| Uuid4
| Savefig (filename : string)
| Train_data_images
| Add_embedding (tag : string)
| Writer_close.

(** The environment decides which calls raise and supplies the few results
    the script itself looks at: the samples each dataset holds, the hex
    form of the identifier [uuid.uuid4()] draws and the printed form of the
    accuracy. *)
Record Env := mkEnv {
  raises : call -> bool;
  mnist_samples : bool -> list (image * Z);
  uuid4_hex : string;
  accuracy_text : string
}.

Inductive failure := Raised (c : call).

(** A run appends the calls it makes to the trace and stops at the first
    one that raises: [main] has no [try]. *)
Definition Run (A : Type) : Type := Env -> list call -> (failure + A) * list call.

Definition done_ {A} (a : A) : Run A := fun _ tr => (inr a, tr).

Definition then_ {A B} (m : Run A) (k : A -> Run B) : Run B :=
  fun env tr =>
    match m env tr with
    | (inr a, tr') => k a env tr'
    | (inl e, tr') => (inl e, tr')
    end.

Definition ask : Run Env := fun env tr => (inr env, tr).

Definition ext (c : call) : Run unit :=
  fun env tr =>
    if raises env c then (inl (Raised c), tr ++ [c]) else (inr tt, tr ++ [c]).

Declare Scope run_scope.
Delimit Scope run_scope with run.
Notation "x <- m ;; k" := (then_ m (fun x => k))
  (at level 100, m at next level, right associativity) : run_scope.
Notation "m ;;; k" := (then_ m (fun _ => k))
  (at level 100, right associativity) : run_scope.

(** [for x in xs: body] *)
Fixpoint for_each {A} (xs : list A) (body : A -> Run unit) : Run unit :=
  match xs with
  | [] => done_ tt
  | x :: rest => (body x ;;; for_each rest body)%run
  end.

(** [if b: m] *)
Definition when_ (b : bool) (m : Run unit) : Run unit :=
  if b then m else done_ tt.

(** The index batches a [DataLoader] over [n] samples yields without
    shuffling: consecutive runs of [batch_size] indices, the last one
    shorter when [batch_size] does not divide [n]. *)
Definition batches (n batch_size : nat) : list (list nat) :=
  map (fun k => seq (k * batch_size) (Nat.min batch_size (n - k * batch_size)))
      (seq 0 ((n + batch_size - 1) / batch_size)%nat).

(** [CachedMNIST(train=..., cuda=..., testing_mode=...)] inside a run: the
    constructor builds (and may download) the torchvision dataset. *)
Definition CachedMNIST_new (train cuda testing_mode : bool) : Run CachedMNIST :=
  (ext (MNIST_new train) ;;;
   env <- ask ;;
   done_ (__init__ (mkMNIST train (mnist_samples env train)) cuda testing_mode))%run.

(** [main], statement by statement.  Defining [training_callback] makes no
    call.  Each batch of the loop is the collation of two-element lists,
    itself a list of two elements, so the branch that splits it into
    features and labels is always taken; it makes no call either. *)
Definition main (cuda : bool) (batch_size pretrain_epochs finetune_epochs : Z)
    (testing_mode : bool) : Run unit :=
  (ext SummaryWriter_new ;;;
   ds_train <- CachedMNIST_new true cuda testing_mode ;;
   ds_val <- CachedMNIST_new false cuda testing_mode ;;
   ext (StackedDenoisingAutoEncoder_new [28 * 28; 500; 500; 2000; 10]) ;;;
   when_ cuda (ext Autoencoder_cuda) ;;;
   ext (Print "Pretraining stage.") ;;;
   ext (Pretrain (train (ds ds_train)) (train (ds ds_val)) cuda pretrain_epochs batch_size) ;;;
   ext (Print "Training stage.") ;;;
   ext SGD_new ;;;
   ext (StepLR_new 100) ;;;
   ext (Train (train (ds ds_train)) (train (ds ds_val)) cuda finetune_epochs batch_size) ;;;
   ext (Print "k-Means stage") ;;;
   ext (DataLoader_new (train (ds ds_train)) 1024 false) ;;;
   ext (KMeans_new 10 20) ;;;
   ext Autoencoder_eval ;;;
   for_each (batches (Z.to_nat (__len__ ds_train)) 1024)
     (fun batch =>
        ext (NextBatch batch) ;;;
        when_ cuda (ext Batch_cuda) ;;;
        ext (Encoder batch)) ;;;
   ext Cat_actual ;;;
   ext Cat_features ;;;
   ext Fit_predict ;;;
   ext Cluster_accuracy ;;;
   env <- ask ;;
   ext (Print (String.append "Final k-Means accuracy: " (accuracy_text env))) ;;;
   ext Reassign ;;;
   if negb testing_mode then
     ext Confusion_matrix ;;;
     ext Normalise ;;;
     ext Uuid4 ;;;
     let confusion_id := uuid4_hex env in
     ext (Savefig (String.append "confusion_" (String.append confusion_id ".png"))) ;;;
     ext (Print (String.append "Writing out confusion diagram with UUID: " confusion_id)) ;;;
     ext Cat_features ;;;
     ext Train_data_images ;;;
     ext (Add_embedding "predicted") ;;;
     ext Writer_close
   else done_ tt)%run.

(** ** Reading a run *)

(** No library call raises. *)
Definition quiet (env : Env) : Prop := forall c, raises env c = false.

(** Carrying out a list of calls in order, up to the first that raises. *)
Fixpoint play (env : Env) (cs : list call) (tr : list call) : option call * list call :=
  match cs with
  | [] => (None, tr)
  | c :: rest =>
      if raises env c then (Some c, tr ++ [c]) else play env rest (tr ++ [c])
  end.

Definition finish {A} (p : option call * list call) (a : A) : (failure + A) * list call :=
  match p with
  | (None, tr) => (inr a, tr)
  | (Some c, tr) => (inl (Raised c), tr)
  end.

(** [m] does nothing but carry out the calls [cs env] and return [a env]. *)
Definition scripted {A} (m : Run A) (cs : Env -> list call) (a : Env -> A) : Prop :=
  forall env tr, m env tr = finish (play env (cs env) tr) (a env).

(** The calls of one pass through the loop body of the k-means stage. *)
Definition batch_calls (cuda : bool) (batch : list nat) : list call :=
  NextBatch batch :: (if cuda then [Batch_cuda] else []) ++ [Encoder batch].

(** The size of the training set as [main] sees it. *)
Definition train_len (testing_mode : bool) (env : Env) : nat :=
  Z.to_nat (__len__ (__init__ (mkMNIST true (mnist_samples env true)) false testing_mode)).

(** The calls of a whole run, in order. *)
Definition main_calls (cuda : bool) (batch_size pretrain_epochs finetune_epochs : Z)
    (testing_mode : bool) (env : Env) : list call :=
  [SummaryWriter_new; MNIST_new true; MNIST_new false;
   StackedDenoisingAutoEncoder_new [28 * 28; 500; 500; 2000; 10]]
  ++ (if cuda then [Autoencoder_cuda] else [])
  ++ [Print "Pretraining stage."; Pretrain true false cuda pretrain_epochs batch_size;
      Print "Training stage."; SGD_new; StepLR_new 100;
      Train true false cuda finetune_epochs batch_size;
      Print "k-Means stage"; DataLoader_new true 1024 false; KMeans_new 10 20;
      Autoencoder_eval]
  ++ flat_map (batch_calls cuda) (batches (train_len testing_mode env) 1024)
  ++ [Cat_actual; Cat_features; Fit_predict; Cluster_accuracy;
      Print (String.append "Final k-Means accuracy: " (accuracy_text env));
      Reassign]
  ++ (if testing_mode then []
      else [Confusion_matrix; Normalise; Uuid4;
            Savefig (String.append "confusion_" (String.append (uuid4_hex env) ".png"));
            Print (String.append "Writing out confusion diagram with UUID: "
                                 (uuid4_hex env));
            Cat_features; Train_data_images; Add_embedding "predicted";
            Writer_close]).

Inductive stage := Pretraining | Finetuning | Clustering.

(** The call that carries out each stage. *)
Definition stage_of (c : call) : option stage :=
  match c with
  | Pretrain _ _ _ _ _ => Some Pretraining
  | Train _ _ _ _ _ => Some Finetuning
  | Fit_predict => Some Clustering
  | _ => None
  end.

Definition stages (tr : list call) : list stage := omap stage_of tr.

(** The calls that leave the report of a full run behind: drawing the
    identifier, writing the image, logging the embedding. *)
Definition is_report (c : call) : bool :=
  match c with
  | Uuid4 | Savefig _ | Add_embedding _ => true
  | _ => false
  end.

(** The calls the k-means stage is made of, with the training call before them. *)
Definition in_clustering_view (c : call) : bool :=
  match c with
  | Train _ _ _ _ _ | DataLoader_new _ _ _ | KMeans_new _ _
  | NextBatch _ | Encoder _ | Fit_predict => true
  | _ => false
  end.

(** The batch size a call is given, if it takes one. *)
Definition batch_size_of (c : call) : option Z :=
  match c with
  | Pretrain _ _ _ _ b | Train _ _ _ _ b | DataLoader_new _ b _ => Some b
  | _ => None
  end.

(** A call with the batch size of the two training routines blanked out. *)
Definition without_training_batch_size (c : call) : call :=
  match c with
  | Pretrain d v cu e _ => Pretrain d v cu e 0
  | Train d v cu e _ => Train d v cu e 0
  | _ => c
  end.

(** ** Further invariants of the store *)

Section StoreInvariants.

Context {F : Type} {TA : TensorArith F}.

(** No two cached indices share a list object. *)
Definition separate (s : Store F) : Prop :=
  forall i j l,
    _cache (self s) !! i = Some l -> _cache (self s) !! j = Some l -> i = j.

(** The transform has run once per cache entry, and one list has been
    allocated per cache entry. *)
Definition counted (s : Store F) : Prop :=
  transform_calls s = size (_cache (self s)) /\
  next_loc s = size (_cache (self s)).

(** The underlying dataset has a sample at the index. *)
Definition valid_index (s : Store F) (i : Z) : Prop :=
  is_Some (py_index (samples (ds (self s))) i).

End StoreInvariants.

(** ** Further views of a run *)


(** The batch an encoder pass works on. *)
Definition encoded_batch (c : call) : option (list nat) :=
  match c with
  | Encoder b => Some b
  | _ => None
  end.

(** The epoch count a call is given, if it takes one. *)
Definition epochs_of (c : call) : option Z :=
  match c with
  | Pretrain _ _ _ e _ | Train _ _ _ e _ => Some e
  | _ => None
  end.

(** The calls of a run up to the loop of the k-means stage. *)
Definition calls_before_loop (cuda : bool)
    (batch_size pretrain_epochs finetune_epochs : Z) : list call :=
  [SummaryWriter_new; MNIST_new true; MNIST_new false;
   StackedDenoisingAutoEncoder_new [28 * 28; 500; 500; 2000; 10]]
  ++ (if cuda then [Autoencoder_cuda] else [])
  ++ [Print "Pretraining stage."; Pretrain true false cuda pretrain_epochs batch_size;
      Print "Training stage."; SGD_new; StepLR_new 100;
      Train true false cuda finetune_epochs batch_size;
      Print "k-Means stage"; DataLoader_new true 1024 false; KMeans_new 10 20;
      Autoencoder_eval].


Definition is_writer_close (c : call) : bool :=
  match c with
  | Writer_close => true
  | _ => false
  end.

(** ** Reading binary32 pixels back *)

Definition all_bytes : list byte := omap Byte.of_N (N.of_nat <$> seq 0 256).

(** What the transform makes of one byte in binary32. *)
Definition b32_scale (b : byte) : binary32 := fmul (of_byte b) lit_0_02.

(** The byte a binary32 pixel value came from, by search. *)
Definition b32_unscale (x : binary32) : option byte :=
  List.find (fun b => SFeqb (b32_scale b) x) all_bytes.

(** ** Concrete inputs *)

(** A three-pixel image: black, mid grey, white. *)
Definition grey_ramp : image := ["000"; "127"; "255"]%byte.

(** The same image with its first pixel one step brighter. *)
Definition almost_grey_ramp : image := ["001"; "127"; "255"]%byte.

(** A dataset of three samples with labels 5, 0, 7. *)
Definition three_samples : MNIST :=
  mkMNIST true [(grey_ramp, 5); (grey_ramp, 0); (grey_ramp, 7)].

(** A dataset of 200 samples, more than the testing-mode length. *)
Definition two_hundred_samples : MNIST := mkMNIST true (repeat (grey_ramp, 3) 200).

(** An environment in which no library call raises. *)
Definition calm_env : Env :=
  {| raises := fun _ => false;
     mnist_samples := fun _ => samples two_hundred_samples;
     uuid4_hex := "3f2b8c1e9d4a4f0ab6c5d7e8f9a0b1c2";
     accuracy_text := "0.5" |}.

(** An environment whose training set is empty, in which concatenating the
    empty list of label batches raises, as [torch.cat] does. *)
Definition empty_env : Env :=
  {| raises := fun c => match c with Cat_actual => true | _ => false end;
     mnist_samples := fun _ => [];
     uuid4_hex := uuid4_hex calm_env;
     accuracy_text := accuracy_text calm_env |}.

(** An environment in which the training dataset cannot be built. *)
Definition offline_env : Env :=
  {| raises := fun c => match c with MNIST_new true => true | _ => false end;
     mnist_samples := mnist_samples calm_env;
     uuid4_hex := uuid4_hex calm_env;
     accuracy_text := accuracy_text calm_env |}.

(** An environment in which finetuning raises. *)
Definition failing_train_env : Env :=
  {| raises := fun c => match c with Train _ _ _ _ _ => true | _ => false end;
     mnist_samples := mnist_samples calm_env;
     uuid4_hex := uuid4_hex calm_env;
     accuracy_text := accuracy_text calm_env |}.

(** * Properties of the dataset *)

Section DatasetProperties.

Context {F : Type} {TA : TensorArith F}.

Implicit Types (s : Store F) (i j index : Z) (l : loc).

Lemma getitem_hit s i l :
  _cache (self s) !! i = Some l -> __getitem__ i s = (inr l, s).
Proof.
  intros Hc. unfold __getitem__, bind, cache_contains, cache_getitem, ret.
  rewrite bool_decide_eq_true_2 by (rewrite Hc; eauto). cbn.
  rewrite Hc. reflexivity.
Qed.

Lemma getitem_out_of_range s i :
  _cache (self s) !! i = None ->
  py_index (samples (ds (self s))) i = None ->
  __getitem__ i s = (inl (lookup_error i), s).
Proof.
  intros Hc Hi. unfold __getitem__, bind, cache_contains, MNIST_getitem.
  rewrite bool_decide_eq_false_2 by (rewrite Hc; intros [? ?]; discriminate).
  cbn. rewrite Hi. reflexivity.
Qed.

Lemma getitem_fill s i img target :
  _cache (self s) !! i = None ->
  py_index (samples (ds (self s))) i = Some (img, target) ->
  __getitem__ i s = (inr (next_loc s), filled s i img target).
Proof.
  intros Hc Hi.
  unfold __getitem__, bind, cache_contains, MNIST_getitem, new_list,
    cache_setitem, get_cuda, cache_getitem, list_getitem, list_setitem,
    lift, ret, deref, filled, entry_of.
  rewrite bool_decide_eq_false_2 by (rewrite Hc; intros [? ?]; discriminate).
  cbn. rewrite Hi. cbn.
  destruct (cuda (self s)); cbn; [| by rewrite lookup_insert_eq].
  repeat first
    [ rewrite lookup_insert_eq
    | rewrite insert_insert_eq
    | rewrite decide_True by (cbn; lia)
    | progress cbn ].
  reflexivity.
Qed.

(** The three ways a call of the accessor can go. *)
Lemma getitem_cases s i :
  (exists l, _cache (self s) !! i = Some l /\ __getitem__ i s = (inr l, s)) \/
  (_cache (self s) !! i = None /\
   py_index (samples (ds (self s))) i = None /\
   __getitem__ i s = (inl (lookup_error i), s)) \/
  (exists img target,
     _cache (self s) !! i = None /\
     py_index (samples (ds (self s))) i = Some (img, target) /\
     __getitem__ i s = (inr (next_loc s), filled s i img target)).
Proof.
  destruct (_cache (self s) !! i) as [l|] eqn:Hc.
  - left. exists l. split; [reflexivity | by apply getitem_hit].
  - destruct (py_index (samples (ds (self s))) i) as [[img target]|] eqn:Hi.
    + right; right. exists img, target. by rewrite (getitem_fill _ _ _ _ Hc Hi).
    + right; left. by rewrite (getitem_out_of_range _ _ Hc Hi).
Qed.

Ltac getitem_cases s i :=
  let l := fresh "l" in
  let img := fresh "img" in
  let target := fresh "target" in
  let Hc := fresh "Hc" in
  let Hi := fresh "Hi" in
  let Hg := fresh "Hg" in
  destruct (getitem_cases s i)
    as [(l & Hc & Hg) | [(Hc & Hi & Hg) | (img & target & Hc & Hi & Hg)]];
  rewrite Hg in *; cbn [fst snd] in *.

Lemma deref_filled_new s i img target :
  deref (filled s i img target) (next_loc s) = entry_of (cuda (self s)) img target.
Proof. unfold deref, filled; cbn. by rewrite lookup_insert_eq. Qed.

Lemma deref_filled_old s i img target l :
  (l < next_loc s)%nat -> deref (filled s i img target) l = deref s l.
Proof.
  intros Hl. unfold deref, filled; cbn. rewrite lookup_insert_ne by lia. done.
Qed.

Lemma consistent_fresh (me : CachedMNIST) :
  _cache me = ∅ -> consistent (fresh_store (F := F) me).
Proof. intros He i l. cbn. rewrite He, lookup_empty. discriminate. Qed.

Lemma consistent_getitem s j :
  consistent s -> consistent (snd (__getitem__ j s)).
Proof.
  intros Hs. getitem_cases s j; try assumption.
  intros i l. cbn. destruct (decide (j = i)) as [->|Hne].
  - rewrite lookup_insert_eq. intros [= <-]. split; [lia |].
    exists img, target. split; [assumption | apply deref_filled_new].
  - rewrite lookup_insert_ne by assumption. intros Hl.
    destruct (Hs i l Hl) as (Hlt & img' & target' & Hi' & Hd).
    split; [lia |]. exists img', target'. split; [assumption |].
    by rewrite deref_filled_old.
Qed.

Lemma after_reads_cons j js s :
  after_reads (j :: js) s = after_reads js (snd (__getitem__ j s)).
Proof. reflexivity. Qed.

Lemma consistent_after_reads js s :
  consistent s -> consistent (after_reads js s).
Proof.
  revert s. induction js as [|j js IH]; intros s Hs; [assumption |].
  rewrite after_reads_cons. apply IH, consistent_getitem, Hs.
Qed.

(** The accessor leaves the fields set by the constructor alone. *)
Lemma fields_getitem s j :
  ds (self (snd (__getitem__ j s))) = ds (self s) /\
  cuda (self (snd (__getitem__ j s))) = cuda (self s) /\
  testing_mode (self (snd (__getitem__ j s))) = testing_mode (self s).
Proof. getitem_cases s j; done. Qed.

Lemma fields_after_reads js s :
  ds (self (after_reads js s)) = ds (self s) /\
  cuda (self (after_reads js s)) = cuda (self s) /\
  testing_mode (self (after_reads js s)) = testing_mode (self s).
Proof.
  revert s. induction js as [|j js IH]; intros s; [done |].
  rewrite after_reads_cons.
  destruct (IH (snd (__getitem__ j s))) as (-> & -> & ->).
  apply fields_getitem.
Qed.

(** A cached entry survives a call of the accessor, at any index: same
    list object, same slots. *)
Lemma entry_kept_getitem s i l j :
  consistent s -> _cache (self s) !! i = Some l ->
  _cache (self (snd (__getitem__ j s))) !! i = Some l /\
  deref (snd (__getitem__ j s)) l = deref s l.
Proof.
  intros Hs Hl. getitem_cases s j; try done.
  destruct (Hs i l Hl) as (Hlt & _). split.
  - cbn. rewrite lookup_insert_ne; [assumption | congruence].
  - by apply deref_filled_old.
Qed.

Lemma entry_kept_after_reads js s i l :
  consistent s -> _cache (self s) !! i = Some l ->
  _cache (self (after_reads js s)) !! i = Some l /\
  deref (after_reads js s) l = deref s l.
Proof.
  revert s. induction js as [|j js IH]; intros s Hs Hl; [done |].
  rewrite after_reads_cons.
  destruct (entry_kept_getitem s i l j Hs Hl) as (Hl' & Hd').
  destruct (IH _ (consistent_getitem s j Hs) Hl') as (? & Hd).
  split; [assumption | congruence].
Qed.

(** The stores reachable from construction by accessor calls. *)
Lemma consistent_reachable (m : MNIST) (c t : bool) js :
  consistent (after_reads (F := F) js (fresh_store (__init__ m c t))).
Proof. apply consistent_after_reads, consistent_fresh. reflexivity. Qed.

(** Filling an entry and reading on: the entry stays where it was put. *)
Lemma fill_then_reads s i img target later :
  consistent s ->
  _cache (self s) !! i = None ->
  py_index (samples (ds (self s))) i = Some (img, target) ->
  let s1 := filled s i img target in
  let s2 := after_reads later s1 in
  __getitem__ i s = (inr (next_loc s), s1) /\
  _cache (self s2) !! i = Some (next_loc s) /\
  deref s2 (next_loc s) = entry_of (cuda (self s)) img target /\
  __getitem__ i s2 = (inr (next_loc s), s2).
Proof.
  intros Hs Hc Hi s1 s2.
  pose proof (getitem_fill s i img target Hc Hi) as Hg.
  assert (Hs1 : consistent s1).
  { pose proof (consistent_getitem s i Hs) as H1. by rewrite Hg in H1. }
  assert (Hk : _cache (self s1) !! i = Some (next_loc s)).
  { cbn. apply lookup_insert_eq. }
  destruct (entry_kept_after_reads later s1 i (next_loc s) Hs1 Hk) as (Hk2 & Hd2).
  fold s2 in Hk2, Hd2. repeat split; try assumption.
  - rewrite Hd2. apply deref_filled_new.
  - by apply getitem_hit.
Qed.

Lemma reachable_fields (m : MNIST) (c t : bool) js :
  let s : Store F := after_reads js (fresh_store (__init__ m c t)) in
  ds (self s) = m /\ cuda (self s) = c /\ testing_mode (self s) = t.
Proof. apply (fields_after_reads js (fresh_store (__init__ m c t))). Qed.

(** C2. [__len__] is 128 in testing mode and the size of the underlying
    dataset otherwise, at construction and after any accessor calls. *)
Theorem len_by_testing_mode (m : MNIST) (c : bool) (js : list Z) :
  __len__ (self (after_reads (F := F) js (fresh_store (__init__ m c true)))) = 128 /\
  __len__ (self (after_reads (F := F) js (fresh_store (__init__ m c false))))
    = MNIST_len m.
Proof.
  split.
  - destruct (fields_after_reads js (fresh_store (F := F) (__init__ m c true)))
      as (_ & _ & Ht).
    unfold __len__. by rewrite Ht.
  - destruct (fields_after_reads js (fresh_store (F := F) (__init__ m c false)))
      as (Hd & _ & Ht).
    unfold __len__. by rewrite Ht, Hd.
Qed.


(** C1. The first call of the accessor at an index runs the transform once
    and stores the sample in a fresh list; whatever is read afterwards, the
    cache keeps that very list with the same slots, and a later call at
    the index returns it again and leaves the store, the transform counter
    included, as it was. *)
Theorem getitem_memoises (m : MNIST) (c t : bool) (pre later : list Z)
    (i : Z) (img : image) (target : Z) :
  let s : Store F := after_reads pre (fresh_store (__init__ m c t)) in
  _cache (self s) !! i = None ->
  py_index (samples m) i = Some (img, target) ->
  let first := __getitem__ i s in
  let s2 := after_reads later (snd first) in
  let again := __getitem__ i s2 in
  fst first = inr (next_loc s) /\
  transform_calls (snd first) = S (transform_calls s) /\
  deref (snd first) (next_loc s) = entry_of c img target /\
  _cache (self s2) !! i = Some (next_loc s) /\
  deref s2 (next_loc s) = deref (snd first) (next_loc s) /\
  fst again = fst first /\
  snd again = s2 /\
  transform_calls (snd again) = transform_calls s2.
Proof.
  intros s Hc Hi first s2 again.
  destruct (reachable_fields m c t pre) as (Hds & Hcu & _).
  fold s in Hds, Hcu. rewrite <- Hds in Hi.
  destruct (fill_then_reads s i img target later
              (consistent_reachable m c t pre) Hc Hi) as (Hg & Hk & Hd & Ha).
  destruct (fill_then_reads s i img target []
              (consistent_reachable m c t pre) Hc Hi) as (_ & _ & Hd0 & _).
  subst first again s2. rewrite !Hg. cbn [fst snd]. rewrite Ha. cbn [fst snd].
  rewrite Hd. cbn in Hd0. rewrite Hd0, Hcu. done.
Qed.

(** C8. The devices of a cached sample are those chosen when the entry is
    filled, from the [cuda] flag given to the constructor: both slots on
    the accelerator when it is set, the feature tensor on the CPU and the
    label a plain integer when it is not; later accessor calls change
    neither the flag nor the entry. *)
Theorem device_decided_at_fill (m : MNIST) (c t : bool) (pre later : list Z)
    (i : Z) (img : image) (target : Z) :
  let s : Store F := after_reads pre (fresh_store (__init__ m c t)) in
  _cache (self s) !! i = None ->
  py_index (samples m) i = Some (img, target) ->
  let s1 := snd (__getitem__ i s) in
  let s2 := after_reads later s1 in
  cuda (self s) = c /\
  device_of <$> deref s1 (next_loc s)
    = (if c then [Some Cuda; Some Cuda] else [Some Cpu; None]) /\
  cuda (self s2) = c /\
  _cache (self s2) !! i = Some (next_loc s) /\
  deref s2 (next_loc s) = deref s1 (next_loc s).
Proof.
  intros s Hc Hi s1 s2.
  destruct (reachable_fields m c t pre) as (Hds & Hcu & _).
  fold s in Hds, Hcu. rewrite <- Hds in Hi.
  destruct (fill_then_reads s i img target later
              (consistent_reachable m c t pre) Hc Hi) as (Hg & Hk & Hd & _).
  destruct (fill_then_reads s i img target []
              (consistent_reachable m c t pre) Hc Hi) as (_ & _ & Hd0 & _).
  destruct (fields_after_reads later s1) as (_ & Hcu2 & _).
  destruct (fields_getitem s i) as (_ & Hcu1 & _).
  subst s1 s2. rewrite Hg in *. cbn [fst snd] in *. cbn in Hd0.
  rewrite Hd, Hd0, Hcu2, Hcu1, Hcu. repeat split; try done.
  by destruct c.
Qed.

(** C9. Whenever the accessor returns, it returns a list object of two
    slots, the feature tensor and the label: with [cuda] off the label is
    the integer of the underlying dataset, with [cuda] on it is a tensor on
    the accelerator.  The list is the cache's own object: a write to one of
    its slots succeeds and is what the next read at the index returns. *)
Theorem getitem_returns_pair (m : MNIST) (c t : bool) (pre : list Z)
    (i : Z) (l : loc) :
  let s : Store F := after_reads pre (fresh_store (__init__ m c t)) in
  let s' := snd (__getitem__ i s) in
  fst (__getitem__ i s) = inr l ->
  exists img target,
    py_index (samples m) i = Some (img, target) /\
    deref s' l =
      [PyTensor (mkTensor (if c then Cuda else Cpu) (t_data (_transformation img)));
       if c then PyTensor (mkTensor Cuda (Int64Scalar target)) else PyInt target] /\
    forall (k : nat) (v : pyval F), (k < 2)%nat ->
      let s'' := snd (list_setitem l k v s') in
      fst (list_setitem l k v s') = inr tt /\
      fst (__getitem__ i s'') = inr l /\
      deref (snd (__getitem__ i s'')) l = <[k := v]> (deref s' l).
Proof.
  intros s s' Hr.
  destruct (reachable_fields m c t pre) as (Hds & Hcu & _). fold s in Hds, Hcu.
  pose proof (consistent_reachable m c t pre) as Hs. fold s in Hs.
  pose proof (consistent_getitem s i Hs) as Hs'. fold s' in Hs'.
  assert (Hk : _cache (self s') !! i = Some l).
  { subst s'. getitem_cases s i.
    - congruence.
    - discriminate.
    - injection Hr as <-. cbn. apply lookup_insert_eq. }
  destruct (Hs' i l Hk) as (_ & img & target & Hi & Hd).
  destruct (fields_getitem s i) as (Hds' & Hcu' & _). fold s' in Hds', Hcu'.
  rewrite Hds', Hds in Hi. rewrite Hcu', Hcu in Hd.
  assert (Hd' : deref s' l =
    [PyTensor (mkTensor (if c then Cuda else Cpu) (t_data (_transformation img)));
     if c then PyTensor (mkTensor Cuda (Int64Scalar target)) else PyInt target]).
  { rewrite Hd. by destruct c. }
  exists img, target. split; [assumption |]. split; [assumption |].
  intros k v Hlt s''. subst s''. unfold list_setitem.
  rewrite decide_True by (rewrite Hd'; cbn; lia). cbn [fst snd]. split; [done |].
  erewrite getitem_hit by (cbn; exact Hk). cbn [fst snd]. split; [done |].
  unfold deref at 1. cbn. by rewrite lookup_insert_eq.
Qed.


(** ** Further properties of the accessor *)

(** One call caches its index when the dataset has it, and nothing else. *)
Lemma cached_getitem s j i :
  is_Some (_cache (self (snd (__getitem__ j s))) !! i) <->
  is_Some (_cache (self s) !! i) \/ (i = j /\ valid_index s i).
Proof.
  unfold valid_index. getitem_cases s j.
  - split; [by left |]. intros [? | [-> _]]; [done | by rewrite Hc].
  - split; [by left |]. intros [? | [-> Hv]]; [done |].
    rewrite Hi in Hv. by destruct Hv.
  - cbn. destruct (decide (j = i)) as [->|Hne].
    + rewrite lookup_insert_eq, Hi. split; [right | ]; eauto.
    + rewrite lookup_insert_ne by assumption. split; [by left |].
      intros [? | [-> _]]; [done | congruence].
Qed.

Lemma cached_after_reads js s i :
  is_Some (_cache (self (after_reads js s)) !! i) <->
  is_Some (_cache (self s) !! i) \/ (i ∈ js /\ valid_index s i).
Proof.
  revert s. induction js as [|j js IH]; intros s.
  - cbn. split; [by left |]. intros [? | [Hin _]]; [done |].
    by apply elem_of_nil in Hin.
  - rewrite after_reads_cons, IH, cached_getitem.
    unfold valid_index. destruct (fields_getitem s j) as (-> & _).
    rewrite elem_of_cons. tauto.
Qed.

Lemma counted_getitem s j : counted s -> counted (snd (__getitem__ j s)).
Proof.
  intros [Ht Hn]. getitem_cases s j; try done.
  unfold counted. cbn. rewrite map_size_insert_None by assumption. lia.
Qed.

Lemma counted_after_reads js s : counted s -> counted (after_reads js s).
Proof.
  revert s. induction js as [|j js IH]; intros s Hs; [assumption |].
  rewrite after_reads_cons. apply IH, counted_getitem, Hs.
Qed.

Lemma separate_getitem s j :
  consistent s -> separate s -> separate (snd (__getitem__ j s)).
Proof.
  intros Hs Hsep. getitem_cases s j; try assumption.
  intros i1 i2 l0. cbn.
  destruct (decide (j = i1)) as [E1|H1], (decide (j = i2)) as [E2|H2];
    subst; rewrite ?lookup_insert_eq, ?lookup_insert_ne by assumption.
  - done.
  - intros [= <-] H. destruct (Hs _ _ H) as [? _]. lia.
  - intros H [= <-]. destruct (Hs _ _ H) as [? _]. lia.
  - apply Hsep.
Qed.

Lemma separate_after_reads js s :
  consistent s -> separate s -> separate (after_reads js s).
Proof.
  revert s. induction js as [|j js IH]; intros s Hs Hsep; [assumption |].
  rewrite after_reads_cons.
  apply IH; [by apply consistent_getitem | by apply separate_getitem].
Qed.

(** Reads of indices that are cached or that the dataset lacks change
    nothing. *)
Lemma settled_reads ks s :
  (forall k, k ∈ ks -> is_Some (_cache (self s) !! k) \/ ~ valid_index s k) ->
  after_reads ks s = s.
Proof.
  induction ks as [|k ks IH]; intros Hk; [reflexivity |].
  rewrite after_reads_cons.
  assert (Hs : snd (__getitem__ k s) = s).
  { unfold valid_index in Hk. getitem_cases s k; try done.
    destruct (Hk k) as [[? Hc'] | Hv]; [by left | congruence |].
    exfalso. apply Hv. by rewrite Hi. }
  rewrite Hs. apply IH. intros k' Hk'. apply Hk. by right.
Qed.

Lemma getitem_invalid_reachable (m : MNIST) (c t : bool) (pre : list Z) i :
  let s : Store F := after_reads pre (fresh_store (__init__ m c t)) in
  py_index (samples m) i = None -> __getitem__ i s = (inl (lookup_error i), s).
Proof.
  intros s Hn.
  destruct (reachable_fields m c t pre) as (Hds & _). fold s in Hds.
  pose proof (consistent_reachable m c t pre) as Hs. fold s in Hs.
  getitem_cases s i; try done.
  - destruct (Hs i l Hc) as (_ & img & target & Hi & _). congruence.
  - congruence.
Qed.

Lemma getitem_valid_reachable (m : MNIST) (c t : bool) (pre : list Z) i :
  let s : Store F := after_reads pre (fresh_store (__init__ m c t)) in
  is_Some (py_index (samples m) i) -> exists l, fst (__getitem__ i s) = inr l.
Proof.
  intros s [x Hx].
  destruct (reachable_fields m c t pre) as (Hds & _). fold s in Hds.
  getitem_cases s i; eauto. congruence.
Qed.

Lemma py_index_in_range {A} (xs : list A) (i : Z) :
  0 <= i < Z.of_nat (length xs) -> is_Some (py_index xs i).
Proof.
  intros Hi. unfold py_index. rewrite decide_True by assumption.
  apply lookup_lt_is_Some. lia.
Qed.

Lemma py_index_negative {A} (xs : list A) (i : Z) :
  - Z.of_nat (length xs) <= i < 0 ->
  py_index xs i = py_index xs (i + Z.of_nat (length xs)).
Proof.
  intros Hi. unfold py_index.
  rewrite (decide_False (P := 0 <= i < _)) by lia.
  rewrite (decide_True (P := - _ <= i < 0)) by assumption.
  rewrite (decide_True (P := 0 <= i + _ < _)) by lia.
  f_equal. lia.
Qed.

Lemma py_index_beyond {A} (xs : list A) (i : Z) :
  Z.of_nat (length xs) <= i -> py_index xs i = None.
Proof.
  intros Hi. unfold py_index.
  rewrite (decide_False (P := 0 <= i < _)) by lia.
  by rewrite (decide_False (P := - _ <= i < 0)) by lia.
Qed.

Lemma cache_holds_valid_reads_aux (m : MNIST) (c t : bool) (js : list Z) (i : Z) :
  is_Some (_cache (self (after_reads (F := F) js (fresh_store (__init__ m c t)))) !! i) ->
  i ∈ js.
Proof.
  rewrite cached_after_reads. cbn. rewrite lookup_empty.
  intros [[? H] | [? _]]; [discriminate | assumption].
Qed.

(** X1. After any sequence of accessor calls on a new dataset, an index is
    cached exactly when it was among the indices read and the underlying
    dataset has a sample there: failed reads leave no entry, and nothing
    is cached ahead of being read. *)
Theorem cache_holds_valid_reads (m : MNIST) (c t : bool) (js : list Z) (i : Z) :
  let s : Store F := after_reads js (fresh_store (__init__ m c t)) in
  is_Some (_cache (self s) !! i) <-> i ∈ js /\ is_Some (py_index (samples m) i).
Proof.
  intros s. subst s. rewrite cached_after_reads. unfold valid_index. cbn.
  rewrite lookup_empty. split; [| by right].
  intros [[? H] | ?]; [discriminate | assumption].
Qed.

(** X2. On every store reached from construction the transform has run
    exactly once per cache entry, and exactly one list has been allocated
    per cache entry; so neither exceeds the number of reads. *)
Theorem one_transform_per_entry (m : MNIST) (c t : bool) (js : list Z) :
  let s : Store F := after_reads js (fresh_store (__init__ m c t)) in
  transform_calls s = size (_cache (self s)) /\
  next_loc s = size (_cache (self s)) /\
  (transform_calls s <= length js)%nat.
Proof.
  intros s.
  assert (Hc : counted s).
  { apply counted_after_reads. split; cbn; by rewrite map_size_empty. }
  destruct Hc as [Ht Hn]. split; [assumption |]. split; [assumption |].
  rewrite Ht, <- size_dom.
  assert (Hsub : dom (_cache (self s)) ⊆ list_to_set (C := gset Z) js).
  { intros i Hi. apply elem_of_dom in Hi.
    apply (cache_holds_valid_reads_aux m c t js i) in Hi.
    by apply elem_of_list_to_set. }
  apply subseteq_size in Hsub. etrans; [exact Hsub |].
  clear. induction js as [|j js IH]; cbn.
  - by rewrite size_empty.
  - rewrite size_union_alt, size_singleton.
    assert (Hd : list_to_set js ∖ {[j]} ⊆ list_to_set (C := gset Z) js).
    { intros x Hx. apply elem_of_difference in Hx. tauto. }
    apply subseteq_size in Hd. lia.
Qed.

(** X3. Reading again indices that have been read before changes nothing
    at all: no transform run, no allocation, no cache update.  A second
    pass over the data, in any order, is served from the cache or fails as
    the first did. *)
Theorem repeated_reads_change_nothing (m : MNIST) (c t : bool) (js ks : list Z) :
  Forall (fun k => k ∈ js) ks ->
  after_reads (F := F) (js ++ ks) (fresh_store (__init__ m c t))
    = after_reads js (fresh_store (__init__ m c t)).
Proof.
  intros Hks. unfold after_reads at 1. rewrite fold_left_app.
  fold (after_reads (F := F) js (fresh_store (__init__ m c t))).
  apply settled_reads. intros k Hk.
  rewrite Forall_forall in Hks. specialize (Hks k Hk).
  destruct (py_index (samples m) k) as [x|] eqn:Hx.
  - left. apply cached_after_reads. right. split; [assumption |].
    unfold valid_index. cbn. by rewrite Hx.
  - right. unfold valid_index.
    destruct (reachable_fields m c t js) as (-> & _). rewrite Hx.
    by intros [? ?].
Qed.

(** X4. Different indices never share a list object, so a write to a slot
    of the list returned for one index leaves the entry of every other
    index as it was. *)
Theorem entries_are_separate (m : MNIST) (c t : bool) (pre : list Z)
    (i j : Z) (li lj : loc) :
  let s : Store F := after_reads pre (fresh_store (__init__ m c t)) in
  i <> j ->
  _cache (self s) !! i = Some li ->
  _cache (self s) !! j = Some lj ->
  li <> lj /\
  forall (k : nat) (v : pyval F),
    deref (snd (list_setitem li k v s)) lj = deref s lj.
Proof.
  intros s Hne Hi Hj.
  assert (Hsep : separate s).
  { apply separate_after_reads.
    - apply consistent_fresh. reflexivity.
    - intros ? ? ?. cbn. rewrite lookup_empty. discriminate. }
  assert (Hl : li <> lj) by (intros ->; apply Hne; eapply Hsep; eassumption).
  split; [assumption |]. intros k v. unfold list_setitem.
  case_decide; [| reflexivity]. unfold deref at 1. cbn.
  by rewrite lookup_insert_ne.
Qed.

(** X5. The cache is keyed by the index as written: a negative index and
    the non-negative index of the same sample get two cache entries, two
    list objects with equal slots, and the transform runs for each. *)
Theorem negative_index_cached_separately (m : MNIST) (c t : bool) (i : Z) :
  - MNIST_len m <= i < 0 ->
  let s0 : Store F := fresh_store (__init__ m c t) in
  let s1 := snd (__getitem__ i s0) in
  let s2 := snd (__getitem__ (i + MNIST_len m) s1) in
  fst (__getitem__ i s0) = inr 0%nat /\
  fst (__getitem__ (i + MNIST_len m) s1) = inr 1%nat /\
  deref s2 0%nat = deref s2 1%nat /\
  transform_calls s2 = 2%nat.
Proof.
  intros Hi s0 s1 s2. unfold MNIST_len in *.
  pose proof (py_index_negative (samples m) i Hi) as Hneg.
  destruct (py_index_in_range (samples m) (i + Z.of_nat (length (samples m))))
    as [[img target] Hx]; [lia |].
  rewrite Hx in Hneg.
  assert (H0 : __getitem__ i s0 = (inr 0%nat, filled s0 i img target)).
  { apply getitem_fill; [apply lookup_empty | exact Hneg]. }
  assert (H1 : __getitem__ (i + Z.of_nat (length (samples m))) s1
               = (inr 1%nat, filled s1 (i + Z.of_nat (length (samples m))) img target)).
  { subst s1. rewrite H0. cbn [snd].
    apply (getitem_fill (filled s0 i img target)); [| exact Hx].
    cbn. rewrite lookup_insert_ne by lia. apply lookup_empty. }
  subst s2. rewrite H1, H0. cbn [fst snd].
  split; [reflexivity |]. split; [reflexivity |].
  subst s1. rewrite H0. cbn [snd]. split; [| reflexivity].
  rewrite deref_filled_old by (cbn; lia).
  rewrite deref_filled_new.
  change 1%nat with (next_loc (filled s0 i img target)).
  rewrite deref_filled_new. reflexivity.
Qed.

(** X6. In testing mode the reported length is 128 even when the
    underlying dataset is smaller: the index just past the underlying
    dataset is then below the reported length and yet the accessor raises
    IndexError there. *)
Theorem testing_len_overstates_small_dataset (m : MNIST) (c : bool) (pre : list Z) :
  MNIST_len m < 128 ->
  let s : Store F := after_reads pre (fresh_store (__init__ m c true)) in
  0 <= MNIST_len m < __len__ (self s) /\
  __getitem__ (MNIST_len m) s = (inl IndexError, s).
Proof.
  intros Hlt s.
  destruct (reachable_fields m c true pre) as (_ & _ & Ht). fold s in Ht.
  split.
  - unfold __len__. rewrite Ht. unfold MNIST_len in *. lia.
  - replace IndexError with (lookup_error (MNIST_len m)).
    + apply getitem_invalid_reachable, py_index_beyond. unfold MNIST_len. lia.
    + unfold lookup_error, MNIST_len in *. apply decide_True. lia.
Qed.

(** X7. When the reported length does not exceed the underlying dataset,
    every index below the length is served on any reachable store, and one
    pass over the indices [0 .. len-1] leaves exactly these indices cached,
    with one transform run for each. *)
Theorem full_pass_fills_cache (m : MNIST) (c t : bool) :
  __len__ (__init__ m c t) <= MNIST_len m ->
  let me := __init__ m c t in
  let n := Z.to_nat (__len__ me) in
  let s : Store F := after_reads (Z.of_nat <$> seq 0 n) (fresh_store me) in
  (forall pre i, 0 <= i < __len__ me ->
     exists l, fst (__getitem__ i (after_reads (F := F) pre (fresh_store me))) = inr l) /\
  (forall i, is_Some (_cache (self s) !! i) <-> 0 <= i < __len__ me) /\
  transform_calls s = n.
Proof.
  intros Hle me n s. unfold MNIST_len in Hle.
  set (len := __len__ (__init__ m c t)) in *. subst me. fold len in n.
  assert (Hin : forall i, i ∈ (Z.of_nat <$> seq 0 n) <-> 0 <= i < len).
  { intros i. rewrite list_elem_of_fmap. split.
    - intros (k & -> & Hk%elem_of_seq). lia.
    - intros Hi. exists (Z.to_nat i). split; [lia |]. apply elem_of_seq. lia. }
  assert (Hcached : forall i, is_Some (_cache (self s) !! i) <-> 0 <= i < len).
  { intros i. subst s. rewrite cached_after_reads. unfold valid_index. cbn [self fresh_store ds __init__ _cache].
    rewrite lookup_empty, Hin. split.
    - intros [[? H] | [? _]]; [discriminate | assumption].
    - intros Hi. right. split; [assumption |].
      apply py_index_in_range. lia. }
  split; [| split; [exact Hcached |]].
  - intros pre i Hi. apply getitem_valid_reachable, py_index_in_range. lia.
  - assert (Hc : counted s).
    { apply counted_after_reads. split; cbn; by rewrite map_size_empty. }
    destruct Hc as [-> _]. rewrite <- size_dom.
    assert (Hdom : dom (_cache (self s)) = list_to_set (C := gset Z) (Z.of_nat <$> seq 0 n)).
    { apply set_eq. intros i.
      rewrite elem_of_dom, elem_of_list_to_set, Hcached, Hin. done. }
    rewrite Hdom, size_list_to_set, length_fmap, length_seq; [reflexivity |].
    apply NoDup_fmap; [intros ? ? ?; lia | apply NoDup_seq].
Qed.

(** X8. When the element-wise map of the arithmetic is one-to-one on
    bytes, the transform is one-to-one on images: images that differ in a
    byte, or in length, have different tensors. *)
Theorem transformation_is_injective (img1 img2 : image) :
  (forall b1 b2 : byte,
     fmul (of_byte b1) lit_0_02 = fmul (of_byte b2) lit_0_02 -> b1 = b2) ->
  img1 <> img2 -> _transformation img1 <> _transformation img2.
Proof.
  intros Hinj Hne Ht. apply Hne. revert Ht.
  unfold _transformation, mul_scalar, ByteTensor_float, tobytes.
  intros [= Heq]. rewrite !map_map in Heq. clear Hne.
  revert img2 Heq. induction img1 as [|b1 img1 IH]; intros [|b2 img2] Heq;
    try discriminate; [reflexivity |].
  cbn in Heq. injection Heq as Hb Hrest.
  f_equal; [by apply Hinj | by apply IH].
Qed.

End DatasetProperties.

(** C1 on the three-sample dataset with [cuda] on: index 0 is read first,
    then index 1 twice with other reads in between. *)
Lemma getitem_memoises_witness :
  let s : Store binary32 := after_reads [0] (fresh_store (__init__ three_samples true false)) in
  let first := __getitem__ 1 s in
  let s2 := after_reads [2; 1; 0] (snd first) in
  fst (__getitem__ 1 s2) = fst first /\ snd (__getitem__ 1 s2) = s2.
Proof.
  intros s first s2.
  assert (Hc : _cache (self s) !! 1 = None) by (vm_compute; reflexivity).
  assert (Hi : py_index (samples three_samples) 1 = Some (grey_ramp, 0))
    by (vm_compute; reflexivity).
  destruct (getitem_memoises three_samples true false [0] [2; 1; 0] 1 grey_ramp 0 Hc Hi)
    as (_ & _ & _ & _ & _ & Hr & Hs & _).
  split; assumption.
Defined.

(** C8 on the same reads. *)
Lemma device_decided_at_fill_witness :
  let s : Store binary32 := after_reads [0] (fresh_store (__init__ three_samples true false)) in
  let s1 := snd (__getitem__ 1 s) in
  device_of <$> deref s1 (next_loc s) = [Some Cuda; Some Cuda] /\
  deref (after_reads [2; 1; 0] s1) (next_loc s) = deref s1 (next_loc s).
Proof.
  intros s s1.
  assert (Hc : _cache (self s) !! 1 = None) by (vm_compute; reflexivity).
  assert (Hi : py_index (samples three_samples) 1 = Some (grey_ramp, 0))
    by (vm_compute; reflexivity).
  destruct (device_decided_at_fill three_samples true false [0] [2; 1; 0] 1 grey_ramp 0 Hc Hi)
    as (_ & Hd & _ & _ & Hk).
  split; assumption.
Defined.

(** C9 with [cuda] off: the entry of index 2 holds the integer label 7. *)
Lemma getitem_returns_pair_witness :
  let s : Store binary32 := fresh_store (__init__ three_samples false false) in
  exists img target,
    py_index (samples three_samples) 2 = Some (img, target) /\
    deref (snd (__getitem__ 2 s)) 0%nat =
      [PyTensor (mkTensor Cpu (t_data (_transformation img))); PyInt target].
Proof.
  intros s.
  assert (Hr : fst (__getitem__ 2 (after_reads [] s)) = inr 0%nat)
    by (vm_compute; reflexivity).
  destruct (getitem_returns_pair three_samples false false [] 2 0%nat Hr)
    as (img & target & Hi & Hd & _).
  exists img, target. split; assumption.
Defined.



(** An index that does not fit in 64 bits fails with the overflow error of
    the lookup, not with IndexError. *)
Example getitem_overflowing_index :
  let s : Store binary32 := fresh_store (__init__ three_samples false false) in
  __getitem__ (2 ^ 63) s = (inl ValueError, s).
Proof. reflexivity. Qed.


(** * Properties of the orchestrator *)

Section Playing.

Variable env : Env.

Lemma play_app cs1 cs2 tr :
  play env (cs1 ++ cs2) tr =
    match play env cs1 tr with
    | (None, tr') => play env cs2 tr'
    | failed => failed
    end.
Proof.
  revert tr. induction cs1 as [|c cs1 IH]; intros tr; cbn; [reflexivity |].
  destruct (raises env c); [reflexivity | apply IH].
Qed.

(** The trace grows by an initial part of the script; on failure that part
    ends with the raising call and nothing before it raised. *)
Lemma play_outcome cs tr :
  match play env cs tr with
  | (None, tr') =>
      tr' = tr ++ cs /\ Forall (fun c => raises env c = false) cs
  | (Some c, tr') =>
      raises env c = true /\
      exists before after,
        cs = before ++ c :: after /\ tr' = tr ++ before ++ [c] /\
        Forall (fun c' => raises env c' = false) before
  end.
Proof.
  revert tr. induction cs as [|c cs IH]; intros tr; cbn.
  - by rewrite app_nil_r.
  - destruct (raises env c) eqn:Hc.
    + split; [assumption |]. exists [], cs. done.
    + specialize (IH (tr ++ [c])). destruct (play env cs (tr ++ [c])) as [[d|] tr'].
      * destruct IH as (Hd & before & after & -> & -> & Hb). split; [assumption |].
        exists (c :: before), after. rewrite <- app_assoc. by repeat constructor.
      * destruct IH as (-> & Hall). rewrite <- app_assoc. by repeat constructor.
Qed.

Lemma play_quiet cs tr : quiet env -> play env cs tr = (None, tr ++ cs).
Proof.
  intros Hq. revert tr. induction cs as [|c cs IH]; intros tr; cbn.
  - by rewrite app_nil_r.
  - rewrite Hq, IH, <- app_assoc. reflexivity.
Qed.

End Playing.

Lemma scripted_done {A} (a : A) : scripted (done_ a) (fun _ => []) (fun _ => a).
Proof. intros env tr. reflexivity. Qed.

Lemma scripted_ask : scripted ask (fun _ => []) (fun env => env).
Proof. intros env tr. reflexivity. Qed.

Lemma scripted_ext c : scripted (ext c) (fun _ => [c]) (fun _ => tt).
Proof. intros env tr. unfold ext. cbn. by destruct (raises env c). Qed.

Lemma scripted_then {A B} (m : Run A) (k : A -> Run B) cs a ks b :
  scripted m cs a ->
  (forall x, scripted (k x) (ks x) (b x)) ->
  scripted (then_ m k) (fun env => cs env ++ ks (a env) env) (fun env => b (a env) env).
Proof.
  intros Hm Hk env tr. unfold then_. rewrite Hm, play_app.
  destruct (play env (cs env) tr) as [[c|] tr']; cbn; [reflexivity | apply Hk].
Qed.

Lemma scripted_when (b : bool) (m : Run unit) cs :
  scripted m cs (fun _ => tt) ->
  scripted (when_ b m) (fun env => if b then cs env else []) (fun _ => tt).
Proof. intros Hm. destruct b; [exact Hm | apply scripted_done]. Qed.

Lemma scripted_for_each {A} (xs : list A) (body : A -> Run unit) cs :
  (forall x, scripted (body x) (fun _ => cs x) (fun _ => tt)) ->
  scripted (for_each xs body) (fun _ => flat_map cs xs) (fun _ => tt).
Proof.
  intros Hb. induction xs as [|x xs IH]; cbn [for_each flat_map].
  - apply scripted_done.
  - apply (scripted_then (body x) (fun _ => for_each xs body)
             (fun _ => cs x) (fun _ => tt)
             (fun _ _ => flat_map cs xs) (fun _ _ => tt)); [apply Hb | intros _; exact IH].
Qed.

Lemma scripted_CachedMNIST_new (train cuda testing_mode : bool) :
  scripted (CachedMNIST_new train cuda testing_mode)
    (fun _ => [MNIST_new train])
    (fun env => __init__ (mkMNIST train (mnist_samples env train)) cuda testing_mode).
Proof.
  intros env tr. unfold CachedMNIST_new, then_, ext, ask, done_. cbn.
  by destruct (raises env (MNIST_new train)).
Qed.

Lemma scripted_batch (cuda : bool) (batch : list nat) :
  scripted (ext (NextBatch batch) ;;; when_ cuda (ext Batch_cuda) ;;; ext (Encoder batch))%run
    (fun _ => batch_calls cuda batch) (fun _ => tt).
Proof.
  intros env tr. unfold then_, ext, when_, done_, batch_calls. cbn.
  destruct (raises env (NextBatch batch)); [reflexivity |].
  destruct cuda; cbn.
  - destruct (raises env Batch_cuda); [reflexivity |].
    by destruct (raises env (Encoder batch)).
  - by destruct (raises env (Encoder batch)).
Qed.

Lemma then_scripted {A B} (m : Run A) (k : A -> Run B) cs a :
  scripted m cs a ->
  forall env tr,
    then_ m k env tr =
      match play env (cs env) tr with
      | (None, tr') => k (a env) env tr'
      | (Some c, tr') => (inl (Raised c), tr')
      end.
Proof.
  intros Hm env tr. unfold then_. rewrite Hm.
  by destruct (play env (cs env) tr) as [[c|] tr'].
Qed.

Ltac run_step :=
  first
    [ rewrite (then_scripted _ _ _ _ (scripted_when _ _ _ (scripted_ext _)))
    | rewrite (then_scripted _ _ _ _ (scripted_ext _))
    | rewrite (then_scripted _ _ _ _ (scripted_CachedMNIST_new _ _ _))
    | rewrite (then_scripted _ _ _ _ scripted_ask)
    | rewrite (then_scripted _ _ _ _ (scripted_done _))
    | rewrite (scripted_ext _)
    | rewrite (scripted_done _) ];
  cbn [play finish app train ds __init__];
  try match goal with
      | |- context [raises ?e ?c] => destruct (raises e c); [reflexivity |]
      end;
  cbn [play finish app train ds __init__].

(** [main] is the straight-line script [main_calls]: it makes these calls
    in this order and stops at the first that raises. *)
Lemma main_scripted (on_gpu : bool) (batch_size pretrain_epochs finetune_epochs : Z)
    (testing : bool) :
  scripted (main on_gpu batch_size pretrain_epochs finetune_epochs testing)
    (main_calls on_gpu batch_size pretrain_epochs finetune_epochs testing)
    (fun _ => tt).
Proof.
  intros env tr. unfold main, main_calls.
  destruct on_gpu; do 15 run_step.
  all: unfold train_len, __len__, __init__; cbn [testing_mode ds].
  all: rewrite (then_scripted _ _ _ _
                  (scripted_for_each _ _ _ (scripted_batch _))), play_app.
  all: match goal with
       | |- context [play ?e (flat_map ?f ?l) ?t] =>
           destruct (play e (flat_map f l) t) as [[c|] tr']; [reflexivity |]
       end.
  all: do 6 run_step.
  all: destruct testing; cbn [negb]; repeat run_step; reflexivity.
Qed.

(** What a run of [main] comes to, in any environment. *)
Lemma main_outcome (on_gpu : bool) (batch_size pretrain_epochs finetune_epochs : Z)
    (testing : bool) (env : Env) :
  let r := main on_gpu batch_size pretrain_epochs finetune_epochs testing env [] in
  let script := main_calls on_gpu batch_size pretrain_epochs finetune_epochs testing env in
  snd r `prefix_of` script /\
  match fst r with
  | inr _ => snd r = script /\ Forall (fun c => raises env c = false) script
  | inl (Raised c) =>
      raises env c = true /\
      exists before, snd r = before ++ [c] /\
        Forall (fun c' => raises env c' = false) before
  end.
Proof.
  intros r script.
  assert (Hr : r = finish (play env script []) tt) by apply main_scripted.
  clearbody r. subst r.
  pose proof (play_outcome env script []) as H.
  destruct (play env script []) as [[c|] tr']; cbn [finish fst snd].
  - destruct H as (Hc & before & after & Hs & -> & Hb). cbn [app].
    split; [exists after; by rewrite Hs, <- app_assoc |].
    split; [assumption |]. by exists before.
  - destruct H as (-> & Hall). done.
Qed.

Lemma main_quiet (on_gpu : bool) (batch_size pretrain_epochs finetune_epochs : Z)
    (testing : bool) (env : Env) :
  quiet env ->
  main on_gpu batch_size pretrain_epochs finetune_epochs testing env [] =
    (inr tt, main_calls on_gpu batch_size pretrain_epochs finetune_epochs testing env).
Proof. intros Hq. by rewrite main_scripted, play_quiet. Qed.

(** ** Views of the script *)

Lemma stages_app tr1 tr2 : stages (tr1 ++ tr2) = stages tr1 ++ stages tr2.
Proof. apply omap_app. Qed.

Lemma stages_batches (on_gpu : bool) bs : stages (flat_map (batch_calls on_gpu) bs) = [].
Proof.
  induction bs as [|b bs IH]; [reflexivity |].
  cbn [flat_map]. rewrite stages_app, IH. by destruct on_gpu.
Qed.

Lemma stages_main_calls on_gpu batch_size pretrain_epochs finetune_epochs testing env :
  stages (main_calls on_gpu batch_size pretrain_epochs finetune_epochs testing env)
    = [Pretraining; Finetuning; Clustering].
Proof.
  unfold main_calls. rewrite !stages_app, stages_batches.
  by destruct on_gpu, testing.
Qed.

Lemma stages_prefix tr1 tr2 : tr1 `prefix_of` tr2 -> stages tr1 `prefix_of` stages tr2.
Proof. intros [k ->]. rewrite stages_app. by eexists. Qed.

Lemma filter_prefix_nil (f : call -> bool) tr1 tr2 :
  tr1 `prefix_of` tr2 -> List.filter f tr2 = [] -> List.filter f tr1 = [].
Proof.
  intros [k ->]. rewrite List.filter_app. intros H.
  by apply app_eq_nil in H as [? _].
Qed.

Lemma report_batches (on_gpu : bool) bs :
  List.filter is_report (flat_map (batch_calls on_gpu) bs) = [].
Proof.
  induction bs as [|b bs IH]; [reflexivity |].
  cbn [flat_map]. rewrite List.filter_app, IH. by destruct on_gpu.
Qed.

Lemma report_main_calls on_gpu batch_size pretrain_epochs finetune_epochs testing env :
  List.filter is_report
      (main_calls on_gpu batch_size pretrain_epochs finetune_epochs testing env)
    = if testing then []
      else [Uuid4;
            Savefig (String.append "confusion_" (String.append (uuid4_hex env) ".png"));
            Add_embedding "predicted"].
Proof.
  unfold main_calls. rewrite !List.filter_app, report_batches.
  by destruct on_gpu, testing.
Qed.

Lemma clustering_view_batches (on_gpu : bool) bs :
  List.filter in_clustering_view (flat_map (batch_calls on_gpu) bs)
    = flat_map (fun b => [NextBatch b; Encoder b]) bs.
Proof.
  induction bs as [|b bs IH]; [reflexivity |].
  cbn [flat_map]. rewrite List.filter_app, IH. by destruct on_gpu.
Qed.

Lemma clustering_view_main_calls on_gpu batch_size pretrain_epochs finetune_epochs testing env :
  List.filter in_clustering_view
      (main_calls on_gpu batch_size pretrain_epochs finetune_epochs testing env)
    = [Train true false on_gpu finetune_epochs batch_size;
       DataLoader_new true 1024 false; KMeans_new 10 20]
      ++ flat_map (fun b => [NextBatch b; Encoder b])
           (batches (train_len testing env) 1024)
      ++ [Fit_predict].
Proof.
  unfold main_calls. rewrite !List.filter_app, clustering_view_batches.
  by destruct on_gpu, testing.
Qed.

Lemma batch_sizes_batches (on_gpu : bool) bs :
  omap batch_size_of (flat_map (batch_calls on_gpu) bs) = [].
Proof.
  induction bs as [|b bs IH]; [reflexivity |].
  cbn [flat_map]. rewrite omap_app, IH. by destruct on_gpu.
Qed.

Lemma batch_sizes_main_calls on_gpu batch_size pretrain_epochs finetune_epochs testing env :
  omap batch_size_of
      (main_calls on_gpu batch_size pretrain_epochs finetune_epochs testing env)
    = [batch_size; batch_size; 1024].
Proof.
  unfold main_calls. rewrite !omap_app, batch_sizes_batches.
  by destruct on_gpu, testing.
Qed.

Lemma blanked_main_calls on_gpu b1 b2 pretrain_epochs finetune_epochs testing env :
  map without_training_batch_size
      (main_calls on_gpu b1 pretrain_epochs finetune_epochs testing env)
    = map without_training_batch_size
        (main_calls on_gpu b2 pretrain_epochs finetune_epochs testing env).
Proof. unfold main_calls. rewrite !map_app. reflexivity. Qed.

(** ** The batches of the loader *)

Lemma concat_chunks (n size count : nat) :
  concat (map (fun k => seq (k * size) (Nat.min size (n - k * size))) (seq 0 count))
    = seq 0 (Nat.min n (count * size)).
Proof.
  induction count as [|count IH].
  - by rewrite Nat.min_0_r.
  - rewrite seq_S, map_app, concat_app, IH. cbn [map concat plus].
    rewrite app_nil_r.
    destruct (le_lt_dec (count * size) n) as [Hle|Hgt].
    + rewrite (Nat.min_r n (count * size)) by assumption.
      rewrite <- seq_app. f_equal. cbn [Nat.mul]. lia.
    + replace (n - count * size)%nat with 0%nat by lia.
      rewrite Nat.min_0_r, app_nil_r. f_equal. cbn [Nat.mul]. lia.
Qed.

Lemma batch_count_covers (n size : nat) :
  (0 < size)%nat -> (n <= (n + size - 1) / size * size)%nat.
Proof.
  intros Hs.
  pose proof (Nat.div_mod_eq (n + size - 1) size) as Hd.
  pose proof (Nat.mod_upper_bound (n + size - 1) size) as Hm.
  nia.
Qed.

Lemma batch_count_tight (n size k : nat) :
  (0 < size)%nat -> (k < (n + size - 1) / size)%nat -> (k * size < n)%nat.
Proof.
  intros Hs Hk.
  pose proof (Nat.div_mod_eq (n + size - 1) size) as Hd.
  nia.
Qed.

(** Without shuffling the batches are the indices [0 .. n-1] in order. *)
Lemma batches_concat (n size : nat) :
  (0 < size)%nat -> concat (batches n size) = seq 0 n.
Proof.
  intros Hs. unfold batches. rewrite concat_chunks.
  f_equal. pose proof (batch_count_covers n size Hs). lia.
Qed.

(** No batch is empty and none exceeds the batch size. *)
Lemma batches_sizes (n size : nat) :
  (0 < size)%nat ->
  Forall (fun b => (0 < length b <= size)%nat) (batches n size).
Proof.
  intros Hs. unfold batches. rewrite Forall_map, Forall_forall.
  intros k Hk%elem_of_seq. cbn. rewrite length_seq.
  pose proof (batch_count_tight n size k Hs). lia.
Qed.

(** Every batch but the last is full. *)
Lemma batches_full (n size k : nat) (b : list nat) :
  (0 < size)%nat ->
  batches n size !! k = Some b ->
  (S k < length (batches n size))%nat ->
  length b = size.
Proof.
  intros Hs Hb Hk. unfold batches in *.
  rewrite length_map, length_seq in Hk.
  rewrite list_lookup_fmap in Hb.
  rewrite lookup_seq_lt in Hb by lia. cbn in Hb. injection Hb as <-.
  rewrite length_seq.
  pose proof (batch_count_tight n size (S k) Hs Hk). cbn [Nat.mul] in *. lia.
Qed.

(** ** The claims about [main] *)

(** C6. [main] carries out the three stages once each and in the order
    pretrain, finetune, cluster.  A run that returns has made every call
    of its script and none raised; a run that does not return ends with the
    exception of the last call it made, the first that raised, having
    carried out only an initial part of the stages.  When no call raises
    the run returns. *)
Theorem main_runs_stages_in_order (on_gpu : bool)
    (batch_size pretrain_epochs finetune_epochs : Z) (testing : bool) (env : Env) :
  let r := main on_gpu batch_size pretrain_epochs finetune_epochs testing env [] in
  stages (snd r) `prefix_of` [Pretraining; Finetuning; Clustering] /\
  match fst r with
  | inr _ =>
      stages (snd r) = [Pretraining; Finetuning; Clustering] /\
      Forall (fun c => raises env c = false) (snd r)
  | inl (Raised c) =>
      raises env c = true /\
      exists before, snd r = before ++ [c] /\
        Forall (fun c' => raises env c' = false) before
  end /\
  (quiet env -> fst r = inr tt).
Proof.
  intros r.
  destruct (main_outcome on_gpu batch_size pretrain_epochs finetune_epochs testing env)
    as (Hp & Ho). fold r in Hp, Ho.
  split; [| split].
  - apply stages_prefix in Hp. by rewrite stages_main_calls in Hp.
  - destruct (fst r) as [[c]|[]]; [assumption |].
    destruct Ho as (-> & Hall). split; [apply stages_main_calls | assumption].
  - intros Hq. subst r. by rewrite main_quiet.
Qed.

(** C5. In testing mode no run, completed or not, draws an identifier,
    writes an image or logs an embedding.  Outside testing mode a run in
    which nothing raises draws one identifier, writes one image named
    [confusion_<identifier>.png] and logs one embedding, in this order. *)
Theorem report_only_outside_testing_mode (on_gpu : bool)
    (batch_size pretrain_epochs finetune_epochs : Z) (env : Env) :
  List.filter is_report
    (snd (main on_gpu batch_size pretrain_epochs finetune_epochs true env [])) = [] /\
  (quiet env ->
   List.filter is_report
     (snd (main on_gpu batch_size pretrain_epochs finetune_epochs false env []))
   = [Uuid4;
      Savefig (String.append "confusion_" (String.append (uuid4_hex env) ".png"));
      Add_embedding "predicted"]).
Proof.
  split.
  - destruct (main_outcome on_gpu batch_size pretrain_epochs finetune_epochs true env)
      as (Hp & _).
    eapply filter_prefix_nil; [exact Hp |]. by rewrite report_main_calls.
  - intros Hq. rewrite main_quiet by assumption. cbn [snd].
    by rewrite report_main_calls.
Qed.

(** C7. In a run in which nothing raises, after training, [main] builds
    the loader with batch size 1024 and shuffling off and k-means with 10
    clusters and 20 restarts, fetches and encodes the batches one by one,
    and only then fits k-means.  The batches are the indices of the
    training set in order, none empty, none above 1024, all but the last
    exactly 1024. *)
Theorem clustering_stage_is_fixed (on_gpu : bool)
    (batch_size pretrain_epochs finetune_epochs : Z) (testing : bool) (env : Env) :
  quiet env ->
  let n := Z.to_nat (if testing then 128
                     else MNIST_len (mkMNIST true (mnist_samples env true))) in
  List.filter in_clustering_view
    (snd (main on_gpu batch_size pretrain_epochs finetune_epochs testing env []))
  = [Train true false on_gpu finetune_epochs batch_size;
     DataLoader_new true 1024 false; KMeans_new 10 20]
    ++ flat_map (fun b => [NextBatch b; Encoder b]) (batches n 1024)
    ++ [Fit_predict] /\
  concat (batches n 1024) = seq 0 n /\
  Forall (fun b => (0 < length b <= 1024)%nat) (batches n 1024) /\
  (forall k b, batches n 1024 !! k = Some b ->
     (S k < length (batches n 1024))%nat -> length b = 1024%nat).
Proof.
  intros Hq n. rewrite main_quiet by assumption. cbn [snd].
  rewrite clustering_view_main_calls.
  split; [reflexivity |].
  split; [apply batches_concat; lia |].
  split; [apply batches_sizes; lia |].
  intros k b Hb Hk. eapply batches_full; [| exact Hb | exact Hk]. lia.
Qed.

(** C10. In a run in which nothing raises, the calls that take a batch
    size are the pretraining and the finetuning call, which get the
    configured one, and the loader of the k-means stage, which gets 1024;
    apart from those two training calls the run is the same whatever batch
    size is configured. *)
Theorem clustering_batch_size_is_1024 (on_gpu : bool)
    (batch_size other_batch_size pretrain_epochs finetune_epochs : Z)
    (testing : bool) (env : Env) :
  quiet env ->
  let tr := snd (main on_gpu batch_size pretrain_epochs finetune_epochs testing env []) in
  let tr' := snd (main on_gpu other_batch_size pretrain_epochs finetune_epochs testing env []) in
  omap batch_size_of tr = [batch_size; batch_size; 1024] /\
  List.filter (fun c => match c with DataLoader_new _ _ _ => true | _ => false end) tr
    = [DataLoader_new true 1024 false] /\
  map without_training_batch_size tr = map without_training_batch_size tr'.
Proof.
  intros Hq tr tr'. subst tr tr'. rewrite !main_quiet by assumption. cbn [snd].
  split; [apply batch_sizes_main_calls |].
  split; [| apply blanked_main_calls].
  unfold main_calls. rewrite !List.filter_app.
  assert (Hb : List.filter (fun c => match c with DataLoader_new _ _ _ => true | _ => false end)
                 (flat_map (batch_calls on_gpu)
                    (batches (train_len testing env) 1024)) = []).
  { induction (batches (train_len testing env) 1024) as [|b bs IH]; [reflexivity |].
    cbn [flat_map]. rewrite List.filter_app, IH. by destruct on_gpu. }
  rewrite Hb. by destruct on_gpu, testing.
Qed.

(** C6 in the calm environment: a testing-mode run with one epoch each
    returns. *)
Lemma main_runs_stages_in_order_witness :
  quiet calm_env /\ fst (main false 256 1 1 true calm_env []) = inr tt.
Proof.
  split; [intros c; reflexivity |].
  apply (main_runs_stages_in_order false 256 1 1 true calm_env).
  intros c; reflexivity.
Defined.

(** C5 in the calm environment. *)
Lemma report_only_outside_testing_mode_witness :
  quiet calm_env /\
  List.filter is_report (snd (main false 256 1 1 false calm_env []))
  = [Uuid4; Savefig "confusion_3f2b8c1e9d4a4f0ab6c5d7e8f9a0b1c2.png";
     Add_embedding "predicted"].
Proof.
  split; [intros c; reflexivity |].
  apply (report_only_outside_testing_mode false 256 1 1 calm_env).
  intros c; reflexivity.
Defined.

(** C7 in the calm environment: the 200 samples make one batch. *)
Lemma clustering_stage_is_fixed_witness :
  quiet calm_env /\ concat (batches 200 1024) = seq 0 200.
Proof.
  split; [intros c; reflexivity |].
  apply (clustering_stage_is_fixed false 256 1 1 false calm_env).
  intros c; reflexivity.
Defined.

(** C10 in the calm environment, with batch sizes 256 and 32. *)
Lemma clustering_batch_size_is_1024_witness :
  quiet calm_env /\
  omap batch_size_of (snd (main false 32 1 1 true calm_env [])) = [32; 32; 1024].
Proof.
  split; [intros c; reflexivity |].
  apply (clustering_batch_size_is_1024 false 32 256 1 1 true calm_env).
  intros c; reflexivity.
Defined.

(** An environment in which finetuning raises: the run ends there, after
    pretraining, with that exception, and the k-means stage never starts. *)
Example finetuning_failure_is_fatal :
  let env := {| raises := fun c => match c with Train _ _ _ _ _ => true | _ => false end;
                mnist_samples := mnist_samples calm_env;
                uuid4_hex := uuid4_hex calm_env;
                accuracy_text := accuracy_text calm_env |} in
  main false 256 1 1 true env [] =
    (inl (Raised (Train true false false 1 256)),
     [SummaryWriter_new; MNIST_new true; MNIST_new false;
      StackedDenoisingAutoEncoder_new [784; 500; 500; 2000; 10];
      Print "Pretraining stage."; Pretrain true false false 1 256;
      Print "Training stage."; SGD_new; StepLR_new 100;
      Train true false false 1 256]).
Proof. reflexivity. Qed.

(** The transform on the three-pixel image, in binary32: 0, 2.54 and 5.1
    up to rounding. *)
Example transformation_grey_ramp :
  _transformation (F := binary32) grey_ramp =
    mkTensor Cpu (Floats [S754_zero false;
                          S754_finite false 10653532 (-22);
                          S754_finite false 10695475 (-21)]).
Proof. reflexivity. Qed.

(** * Further properties of the orchestrator *)

Lemma omap_prefix {A} (f : call -> option A) tr1 tr2 :
  tr1 `prefix_of` tr2 -> omap f tr1 `prefix_of` omap f tr2.
Proof. intros [k ->]. rewrite omap_app. by eexists. Qed.

Lemma encoded_batches_of_loop (on_gpu : bool) bs :
  omap encoded_batch (flat_map (batch_calls on_gpu) bs) = bs.
Proof.
  induction bs as [|b bs IH]; [reflexivity |].
  cbn [flat_map]. rewrite omap_app, IH. by destruct on_gpu.
Qed.

Lemma encoded_main_calls on_gpu batch_size pretrain_epochs finetune_epochs testing env :
  omap encoded_batch
      (main_calls on_gpu batch_size pretrain_epochs finetune_epochs testing env)
    = batches (train_len testing env) 1024.
Proof.
  unfold main_calls. rewrite !omap_app, encoded_batches_of_loop.
  destruct on_gpu, testing; cbn; by rewrite app_nil_r.
Qed.



Lemma no_option_in_loop {A} (f : call -> option A) (on_gpu : bool) bs :
  f Batch_cuda = None ->
  (forall b, f (NextBatch b) = None) -> (forall b, f (Encoder b) = None) ->
  omap f (flat_map (batch_calls on_gpu) bs) = [].
Proof.
  intros Hc Hn He. induction bs as [|b bs IH]; [reflexivity |].
  cbn [flat_map]. rewrite omap_app, IH. unfold batch_calls.
  destruct on_gpu; cbn; rewrite ?Hc, Hn, He; reflexivity.
Qed.

Lemma main_calls_data on_gpu batch_size pretrain_epochs finetune_epochs testing env env' :
  mnist_samples env true = mnist_samples env' true ->
  uuid4_hex env = uuid4_hex env' ->
  accuracy_text env = accuracy_text env' ->
  main_calls on_gpu batch_size pretrain_epochs finetune_epochs testing env
    = main_calls on_gpu batch_size pretrain_epochs finetune_epochs testing env'.
Proof.
  intros Hs Hu Ha. unfold main_calls, train_len. by rewrite Hs, Hu, Ha.
Qed.

Lemma play_extends env cs tr : exists new, snd (play env cs tr) = tr ++ new.
Proof.
  pose proof (play_outcome env cs tr) as H.
  destruct (play env cs tr) as [[c|] tr']; cbn [snd].
  - destruct H as (_ & before & after & _ & -> & _). by eexists.
  - destruct H as (-> & _). by eexists.
Qed.

Lemma play_head env c cs : head (snd (play env (c :: cs) [])) = Some c.
Proof.
  cbn [play app]. destruct (raises env c); [reflexivity |].
  destruct (play_extends env cs [c]) as [new ->]. reflexivity.
Qed.

Lemma snd_finish {A} (p : option call * list call) (a : A) : snd (finish p a) = snd p.
Proof. by destruct p as [[c|] tr]. Qed.

Lemma main_first_call on_gpu batch_size pretrain_epochs finetune_epochs testing env :
  head (snd (main on_gpu batch_size pretrain_epochs finetune_epochs testing env []))
    = Some SummaryWriter_new.
Proof.
  rewrite main_scripted, snd_finish. unfold main_calls. cbn [app].
  apply play_head.
Qed.


Lemma main_calls_last on_gpu batch_size pretrain_epochs finetune_epochs env :
  last (main_calls on_gpu batch_size pretrain_epochs finetune_epochs false env)
    = Some Writer_close.
Proof. unfold main_calls. rewrite !last_app. reflexivity. Qed.

(** X9. In testing mode the k-means stage encodes a single batch, the
    indices 0 to 127, whatever the training set holds: no run encodes
    anything else, and a run in which nothing raises encodes exactly
    that. *)
Theorem testing_mode_encodes_first_128 (on_gpu : bool)
    (batch_size pretrain_epochs finetune_epochs : Z) (env : Env) :
  let tr := snd (main on_gpu batch_size pretrain_epochs finetune_epochs true env []) in
  omap encoded_batch tr `prefix_of` [seq 0 128] /\
  (quiet env -> omap encoded_batch tr = [seq 0 128]).
Proof.
  intros tr. subst tr.
  assert (Hb : omap encoded_batch
                 (main_calls on_gpu batch_size pretrain_epochs finetune_epochs true env)
               = [seq 0 128]).
  { rewrite encoded_main_calls. reflexivity. }
  split.
  - destruct (main_outcome on_gpu batch_size pretrain_epochs finetune_epochs true env)
      as (Hp & _).
    apply (omap_prefix encoded_batch) in Hp. by rewrite Hb in Hp.
  - intros Hq. by rewrite main_quiet.
Qed.

Lemma play_clean env cs tr :
  Forall (fun c => raises env c = false) cs -> play env cs tr = (None, tr ++ cs).
Proof.
  intros Hall. revert tr. induction Hall as [|c cs Hc _ IH]; intros tr; cbn.
  - by rewrite app_nil_r.
  - rewrite Hc, IH, <- app_assoc. reflexivity.
Qed.

Lemma play_stops env before c after tr :
  raises env c = true ->
  play env (before ++ c :: after) tr = play env (before ++ [c]) tr.
Proof.
  intros Hc. rewrite !play_app.
  destruct (play env before tr) as [[d|] tr']; [reflexivity |].
  cbn. by rewrite Hc.
Qed.

Lemma filter_prefix (f : call -> bool) tr1 tr2 :
  tr1 `prefix_of` tr2 -> List.filter f tr1 `prefix_of` List.filter f tr2.
Proof. intros [k ->]. rewrite List.filter_app. by eexists. Qed.

Lemma main_calls_empty_training on_gpu batch_size pretrain_epochs finetune_epochs env :
  mnist_samples env true = [] ->
  exists after,
    main_calls on_gpu batch_size pretrain_epochs finetune_epochs false env
      = calls_before_loop on_gpu batch_size pretrain_epochs finetune_epochs
        ++ Cat_actual :: after.
Proof.
  intros He. unfold main_calls, calls_before_loop, train_len, __len__, __init__, MNIST_len.
  cbn [testing_mode ds samples]. rewrite He.
  change (batches (Z.to_nat (Z.of_nat (length (@nil (image * Z))))) 1024)
    with (@nil (list nat)).
  cbn [flat_map]. eexists. rewrite <- !app_assoc. reflexivity.
Qed.

(** X10. With an empty training set outside testing mode the loop body
    never runs, so the list of label batches stays empty and its
    concatenation raises.  Given that, no run returns, none fetches or
    encodes a batch, fits k-means or reports; and when nothing else
    raises the run ends at that concatenation, with both training stages
    done. *)
Theorem empty_training_set_stops_at_cat (on_gpu : bool)
    (batch_size pretrain_epochs finetune_epochs : Z) (env : Env) :
  mnist_samples env true = [] ->
  raises env Cat_actual = true ->
  let r := main on_gpu batch_size pretrain_epochs finetune_epochs false env [] in
  (exists c, fst r = inl (Raised c)) /\
  List.filter in_clustering_view (snd r)
    `prefix_of` [Train true false on_gpu finetune_epochs batch_size;
                 DataLoader_new true 1024 false; KMeans_new 10 20] /\
  stages (snd r) `prefix_of` [Pretraining; Finetuning] /\
  List.filter is_report (snd r) = [] /\
  ((forall c, c <> Cat_actual -> raises env c = false) ->
   r = (inl (Raised Cat_actual),
        calls_before_loop on_gpu batch_size pretrain_epochs finetune_epochs
          ++ [Cat_actual]) /\
   stages (snd r) = [Pretraining; Finetuning]).
Proof.
  intros He Hcat r.
  destruct (main_calls_empty_training on_gpu batch_size pretrain_epochs
              finetune_epochs env He) as [after Hscript].
  set (before := calls_before_loop on_gpu batch_size pretrain_epochs finetune_epochs)
    in *.
  assert (Hr : r = finish (play env (before ++ [Cat_actual]) []) tt).
  { subst r. rewrite main_scripted, Hscript. by rewrite play_stops. }
  clearbody r. subst r.
  pose proof (play_outcome env (before ++ [Cat_actual]) []) as Ho.
  assert (Hstages : stages (before ++ [Cat_actual]) = [Pretraining; Finetuning])
    by (subst before; by destruct on_gpu).
  assert (Hview : List.filter in_clustering_view (before ++ [Cat_actual])
                  = [Train true false on_gpu finetune_epochs batch_size;
                     DataLoader_new true 1024 false; KMeans_new 10 20])
    by (subst before; by destruct on_gpu).
  assert (Hrep : List.filter is_report (before ++ [Cat_actual]) = [])
    by (subst before; by destruct on_gpu).
  assert (Hpre : snd (play env (before ++ [Cat_actual]) [])
                 `prefix_of` before ++ [Cat_actual]).
  { destruct (play env (before ++ [Cat_actual]) []) as [[d|] tr']; cbn [snd].
    - destruct Ho as (_ & b & a & Hcs & Htr & _). exists a.
      rewrite Htr, Hcs. cbn [app]. by rewrite <- app_assoc.
    - destruct Ho as (Htr & _). by rewrite Htr. }
  rewrite snd_finish.
  split; [| split; [| split; [| split]]].
  - destruct (play env (before ++ [Cat_actual]) []) as [[d|] tr']; cbn; [by eexists |].
    destruct Ho as (_ & Hall). apply Forall_app in Hall as [_ Hall].
    apply Forall_inv in Hall. congruence.
  - rewrite <- Hview. by apply filter_prefix.
  - rewrite <- Hstages. by apply stages_prefix.
  - eapply filter_prefix_nil; [exact Hpre | exact Hrep].
  - intros Hq.
    assert (Hb : Forall (fun c => raises env c = false) before).
    { subst before. unfold calls_before_loop.
      destruct on_gpu; cbn [app]; repeat constructor; apply Hq; discriminate. }
    rewrite play_app, (play_clean env before [] Hb). cbn. rewrite Hcat. cbn.
    split; [reflexivity | exact Hstages].
Qed.


(** X12. Every run starts by creating the TensorBoard writer.  In testing
    mode no run ever closes it; outside testing mode a run in which
    nothing raises closes it as its very last call. *)
Theorem writer_closed_only_outside_testing (on_gpu : bool)
    (batch_size pretrain_epochs finetune_epochs : Z) (testing : bool) (env : Env) :
  head (snd (main on_gpu batch_size pretrain_epochs finetune_epochs testing env []))
    = Some SummaryWriter_new /\
  List.filter is_writer_close
    (snd (main on_gpu batch_size pretrain_epochs finetune_epochs true env [])) = [] /\
  (quiet env ->
   last (snd (main on_gpu batch_size pretrain_epochs finetune_epochs false env []))
     = Some Writer_close).
Proof.
  split; [| split].
  - apply main_first_call.
  - destruct (main_outcome on_gpu batch_size pretrain_epochs finetune_epochs true env)
      as (Hp & _).
    eapply filter_prefix_nil; [exact Hp |].
    unfold main_calls. rewrite !List.filter_app.
    assert (Hl : List.filter is_writer_close
                   (flat_map (batch_calls on_gpu) (batches (train_len true env) 1024)) = []).
    { induction (batches (train_len true env) 1024) as [|b bs IH]; [reflexivity |].
      cbn [flat_map]. rewrite List.filter_app, IH. by destruct on_gpu. }
    rewrite Hl. by destruct on_gpu.
  - intros Hq. rewrite main_quiet by assumption. cbn [snd].
    apply main_calls_last.
Qed.

(** X13. When building the training dataset fails (say the download does),
    the run ends there with that exception: the validation dataset and
    the model are never built and no stage starts. *)
Theorem dataset_failure_aborts_before_training (on_gpu : bool)
    (batch_size pretrain_epochs finetune_epochs : Z) (testing : bool) (env : Env) :
  raises env SummaryWriter_new = false ->
  raises env (MNIST_new true) = true ->
  main on_gpu batch_size pretrain_epochs finetune_epochs testing env []
    = (inl (Raised (MNIST_new true)), [SummaryWriter_new; MNIST_new true]).
Proof.
  intros Hw Hd. rewrite main_scripted. unfold main_calls. cbn [app play].
  by rewrite Hw, Hd.
Qed.

(** X14. In a run in which nothing raises each epoch count reaches its own
    stage and nothing else: pretraining gets the pretraining count,
    finetuning the finetuning count, and no other call takes one. *)
Theorem epochs_reach_their_stage (on_gpu : bool)
    (batch_size pretrain_epochs finetune_epochs : Z) (testing : bool) (env : Env) :
  quiet env ->
  omap epochs_of
    (snd (main on_gpu batch_size pretrain_epochs finetune_epochs testing env []))
  = [pretrain_epochs; finetune_epochs].
Proof.
  intros Hq. rewrite main_quiet by assumption. cbn [snd].
  unfold main_calls. rewrite !omap_app, no_option_in_loop by reflexivity.
  by destruct on_gpu, testing.
Qed.

(** X15. An exception only cuts a run short: the calls made in any
    environment are an initial part of the calls made, with the same
    options and the same data, when nothing raises. *)
Theorem failing_run_is_cut_short (on_gpu : bool)
    (batch_size pretrain_epochs finetune_epochs : Z) (testing : bool)
    (env env' : Env) :
  quiet env' ->
  mnist_samples env true = mnist_samples env' true ->
  uuid4_hex env = uuid4_hex env' ->
  accuracy_text env = accuracy_text env' ->
  snd (main on_gpu batch_size pretrain_epochs finetune_epochs testing env [])
    `prefix_of`
  snd (main on_gpu batch_size pretrain_epochs finetune_epochs testing env' []).
Proof.
  intros Hq Hs Hu Ha.
  destruct (main_outcome on_gpu batch_size pretrain_epochs finetune_epochs testing env)
    as (Hp & _).
  rewrite (main_quiet _ _ _ _ _ env') by assumption. cbn [snd].
  by rewrite <- (main_calls_data _ _ _ _ _ env env').
Qed.

(** ** Binary32 pixels *)

Lemma b32_unscale_scale (b : byte) : b32_unscale (b32_scale b) = Some b.
Proof. destruct b; vm_compute; reflexivity. Qed.

Lemma b32_scale_injective (b1 b2 : byte) :
  fmul (F := binary32) (of_byte b1) lit_0_02 = fmul (of_byte b2) lit_0_02 -> b1 = b2.
Proof.
  intros Heq. fold (b32_scale b1) in Heq. fold (b32_scale b2) in Heq.
  pose proof (b32_unscale_scale b1) as H1. rewrite Heq, b32_unscale_scale in H1.
  congruence.
Qed.

(** ** Instances of the further properties *)

(** X3: a second pass in another order over the three-sample dataset. *)
Lemma repeated_reads_change_nothing_witness :
  after_reads (F := binary32) ([0; 1; 2; 7] ++ [2; 7; 0; 1])
      (fresh_store (__init__ three_samples true false))
    = after_reads [0; 1; 2; 7] (fresh_store (__init__ three_samples true false)).
Proof.
  apply (repeated_reads_change_nothing three_samples true false [0; 1; 2; 7] [2; 7; 0; 1]).
  apply (bool_decide_unpack _). vm_compute. exact I.
Defined.

(** X4: indices 0 and 2 of the three-sample dataset. *)
Lemma entries_are_separate_witness :
  let s : Store binary32 :=
    after_reads [0; 2] (fresh_store (__init__ three_samples false false)) in
  0%nat <> 1%nat /\
  forall (k : nat) (v : pyval binary32),
    deref (snd (list_setitem 0%nat k v s)) 1%nat = deref s 1%nat.
Proof.
  intros s.
  apply (entries_are_separate three_samples false false [0; 2] 0 2 0%nat 1%nat).
  - lia.
  - vm_compute. reflexivity.
  - vm_compute. reflexivity.
Defined.

(** X5: index -1 and index 2 of the three-sample dataset. *)
Lemma negative_index_cached_separately_witness :
  let s0 : Store binary32 := fresh_store (__init__ three_samples true false) in
  let s1 := snd (__getitem__ (-1) s0) in
  let s2 := snd (__getitem__ (-1 + MNIST_len three_samples) s1) in
  fst (__getitem__ (-1) s0) = inr 0%nat /\
  fst (__getitem__ (-1 + MNIST_len three_samples) s1) = inr 1%nat /\
  deref s2 0%nat = deref s2 1%nat /\
  transform_calls s2 = 2%nat.
Proof.
  apply (negative_index_cached_separately three_samples true false (-1)).
  vm_compute. split; [discriminate | reflexivity].
Defined.

(** X6: the three-sample dataset in testing mode. *)
Lemma testing_len_overstates_small_dataset_witness :
  let s : Store binary32 := after_reads [0] (fresh_store (__init__ three_samples false true)) in
  0 <= MNIST_len three_samples < __len__ (self s) /\
  __getitem__ (MNIST_len three_samples) s = (inl IndexError, s).
Proof.
  apply (testing_len_overstates_small_dataset three_samples false [0]).
  vm_compute. reflexivity.
Defined.

(** X7: the 200-sample dataset in testing mode, 128 reads. *)
Lemma full_pass_fills_cache_witness :
  let me := __init__ two_hundred_samples false true in
  let s : Store binary32 :=
    after_reads (Z.of_nat <$> seq 0 (Z.to_nat (__len__ me))) (fresh_store me) in
  transform_calls s = Z.to_nat (__len__ me).
Proof.
  intros me s.
  apply (full_pass_fills_cache two_hundred_samples false true).
  vm_compute. discriminate.
Defined.

(** X8: in binary32 the element map is one-to-one, and two images that
    differ in their first byte are told apart. *)
Lemma transformation_is_injective_witness :
  grey_ramp <> almost_grey_ramp /\
  _transformation (F := binary32) grey_ramp <> _transformation almost_grey_ramp.
Proof.
  split; [discriminate |].
  apply (transformation_is_injective (F := binary32) grey_ramp almost_grey_ramp).
  - exact b32_scale_injective.
  - discriminate.
Defined.

(** X9 in the calm environment. *)
Lemma testing_mode_encodes_first_128_witness :
  quiet calm_env /\
  omap encoded_batch (snd (main false 256 1 1 true calm_env [])) = [seq 0 128].
Proof.
  split; [intros c; reflexivity |].
  apply (testing_mode_encodes_first_128 false 256 1 1 calm_env).
  intros c; reflexivity.
Defined.

(** X10 in the environment with no training samples, where only the
    concatenation raises. *)
Lemma empty_training_set_stops_at_cat_witness :
  fst (main false 256 1 1 false empty_env []) = inl (Raised Cat_actual) /\
  stages (snd (main false 256 1 1 false empty_env [])) = [Pretraining; Finetuning].
Proof.
  destruct (empty_training_set_stops_at_cat false 256 1 1 empty_env)
    as (_ & _ & _ & _ & H); [reflexivity | reflexivity |].
  destruct H as [Hr Hs].
  - intros c Hc. destruct c; try reflexivity. contradiction.
  - split; [by rewrite Hr | exact Hs].
Defined.


(** X12 in the calm environment. *)
Lemma writer_closed_only_outside_testing_witness :
  quiet calm_env /\
  last (snd (main false 256 1 1 false calm_env [])) = Some Writer_close.
Proof.
  split; [intros c; reflexivity |].
  apply (writer_closed_only_outside_testing false 256 1 1 false calm_env).
  intros c; reflexivity.
Defined.

(** X13 in the environment without the training dataset. *)
Lemma dataset_failure_aborts_before_training_witness :
  main false 256 300 500 false offline_env []
    = (inl (Raised (MNIST_new true)), [SummaryWriter_new; MNIST_new true]).
Proof.
  apply (dataset_failure_aborts_before_training false 256 300 500 false offline_env).
  - reflexivity.
  - reflexivity.
Defined.

(** X14 in the calm environment, with the default epoch counts. *)
Lemma epochs_reach_their_stage_witness :
  quiet calm_env /\
  omap epochs_of (snd (main false 256 300 500 true calm_env [])) = [300; 500].
Proof.
  split; [intros c; reflexivity |].
  apply (epochs_reach_their_stage false 256 300 500 true calm_env).
  intros c; reflexivity.
Defined.

(** X15: the run in which finetuning raises against the calm run. *)
Lemma failing_run_is_cut_short_witness :
  snd (main false 256 1 1 true failing_train_env [])
    `prefix_of` snd (main false 256 1 1 true calm_env []).
Proof.
  apply (failing_run_is_cut_short false 256 1 1 true failing_train_env calm_env).
  - intros c; reflexivity.
  - reflexivity.
  - reflexivity.
  - reflexivity.
Defined.
